(** * KREPS front end: the session and ingestion orchestrator of [App.js]

    A shallow embedding of the state that the [App] component owns
    ([uploadedFiles], [processingStatus], [messages], [inputMessage],
    [isThinking], [collectionInfo]) and of the handlers that change it
    ([loadCollectionInfo], [handleFileUpload], [handleSendMessage],
    [removeFile]), followed by the properties of the transcript, of the
    upload jobs and of the collection summary.

    Modelling conventions.
    - A JavaScript string is a [string]: one [ascii] per code unit, so the
      code units are those below 256.
    - A value that comes out of [response.json()] is a [jsval]; numbers are
      carried as rationals and are never computed with by the handlers.
    - An [async] handler is split at its [await]s: the segment that runs up
      to the [fetch], and the segment that the settled request resumes.  The
      two [await]s of a handler ([fetch], then [response.json()]) are settled
      by one [Outcome], because the handler does nothing in between.
    - The state setters of React are applied in the order they are called;
      a handler reads the state of the latest render.
    - What a handler does to the outside world ([fetch], [alert],
      [console.error]) is appended to a trace kept in the state.
    - [Math.random], [Date.now] and [new Date] are read by the environment:
      their results are arguments of the events. *)

From Stdlib Require Import ZArith String Ascii List DecimalString.
From Stdlib Require QArith.
From stdpp Require Import gmap strings list fin_maps.

Local Open Scope Z_scope.
Set Warnings "-register-all,-clear-no-such-hyp".

(** ** JavaScript values *)

Abbreviation Q := QArith_base.Q.
Abbreviation Qmake := QArith_base.Qmake.

Inductive jsval : Type :=
| JUndefined
| JNull
| JBool (b : bool)
| JNum (q : Q)
| JStr (s : string)
| JArr (items : list jsval)
| JObj (fields : list (string * jsval)).

Definition JInt (z : Z) : jsval := JNum (Qmake z 1).

(** ToBoolean, as used by [||] and [!]. *)
Definition truthy (v : jsval) : bool :=
  match v with
  | JUndefined | JNull => false
  | JBool b => b
  | JNum q => negb (QArith_base.Qnum q =? 0)
  | JStr s => negb (String.eqb s "")
  | JArr _ | JObj _ => true
  end.

(** [a || b] *)
Definition js_or (a b : jsval) : jsval := if truthy a then a else b.

(** The property names that the handlers read. *)
Inductive PropName : Type :=
| p_collection | p_document_count | p_answer | p_sources | p_length.

Definition prop_key (p : PropName) : string :=
  match p with
  | p_collection => "collection"
  | p_document_count => "document_count"
  | p_answer => "answer"
  | p_sources => "sources"
  | p_length => "length"
  end.

Fixpoint own_field (fields : list (string * jsval)) (k : string) : jsval :=
  match fields with
  | [] => JUndefined
  | (k', v) :: rest => if String.eqb k' k then v else own_field rest k
  end.

(** [v.p]: [None] is the TypeError raised on [undefined] and [null].  None of
    the names of [PropName] but [length] lives on a prototype, so a missing
    property reads as [undefined]. *)
Definition get_prop (v : jsval) (p : PropName) : option jsval :=
  match v with
  | JUndefined | JNull => None
  | JBool _ | JNum _ => Some JUndefined
  | JStr s =>
      Some (match p with
            | p_length => JInt (Z.of_nat (String.length s))
            | _ => JUndefined
            end)
  | JArr items =>
      Some (match p with
            | p_length => JInt (Z.of_nat (List.length items))
            | _ => JUndefined
            end)
  | JObj fields => Some (own_field fields (prop_key p))
  end.

(** ** Strings *)

(** White space of [String.prototype.trim] among the code units below 256:
    TAB, LF, VT, FF, CR, SP and NBSP. *)
Definition is_ws (c : ascii) : bool :=
  let n := nat_of_ascii c in
  (n =? 9)%nat || (n =? 10)%nat || (n =? 11)%nat || (n =? 12)%nat
  || (n =? 13)%nat || (n =? 32)%nat || (n =? 160)%nat.

Fixpoint trimStart (s : string) : string :=
  match s with
  | EmptyString => EmptyString
  | String c rest => if is_ws c then trimStart rest else s
  end.

Definition trimEnd (s : string) : string :=
  String.rev (trimStart (String.rev s)).

Definition trim (s : string) : string := trimEnd (trimStart s).

(** [s.split('.')] *)
Fixpoint split_dot (s : string) : list string :=
  match s with
  | EmptyString => [EmptyString]
  | String c rest =>
      match split_dot rest with
      | [] => [String c EmptyString]
      | piece :: pieces =>
          if Ascii.eqb c "."%char then EmptyString :: piece :: pieces
          else String c piece :: pieces
      end
  end.

(** [toLowerCase] on a code unit below 256: A-Z, and the capital letters
    0xC0-0xDE without the multiplication sign 0xD7. *)
Definition lower_char (c : ascii) : ascii :=
  let n := nat_of_ascii c in
  if ((65 <=? n)%nat && (n <=? 90)%nat)
     || ((192 <=? n)%nat && (n <=? 222)%nat && negb (n =? 215)%nat)
  then ascii_of_nat (n + 32) else c.

Fixpoint toLowerCase (s : string) : string :=
  match s with
  | EmptyString => EmptyString
  | String c rest => String (lower_char c) (toLowerCase rest)
  end.

(** [name.split('.').pop().toLowerCase()] *)
Definition extension (name : string) : string :=
  toLowerCase (List.last (split_dot name) EmptyString).

(** [n.toString()] for an integer [n]. *)
Definition toString (n : Z) : string := NilZero.string_of_int (Z.to_int n).

Definition API_BASE : string := "http://localhost:8000".

(** ** Data model *)

Inductive Role : Type := user | assistant.

(** The values of a job status: ['pending'], ['processing'], ['completed'],
    ['error']. *)
Inductive Status : Type := pending | processing | completed | error.

Definition status_text (s : Status) : string :=
  match s with
  | pending => "pending"
  | processing => "processing"
  | completed => "completed"
  | error => "error"
  end.

Global Instance Status_eq_dec : EqDecision Status.
Proof. solve_decision. Defined.

Global Instance Role_eq_dec : EqDecision Role.
Proof. solve_decision. Defined.

(** A transcript entry.  [sources] is [None] when the object has no such
    property (the greeting, user messages and the failure notice). *)
Module Message.
Record t : Type := mk {
  id : string;
  role : Role;
  content : jsval;
  sources : option jsval;
  timestamp : Z
}.
End Message.

(** The file objects of the picker, as far as the handler reads them. *)
Module File.
Record t : Type := mk {
  name : string;
  size : N
}.
End File.

(** An entry of [uploadedFiles]. *)
Module Job.
Record t : Type := mk {
  id : string;
  name : string;
  size : N;
  type : string;
  status : Status
}.
End Job.

Module CollectionInfo.
Record t : Type := mk {
  document_count : jsval;
  total_chunks : jsval
}.
End CollectionInfo.

(** ** Requests, effects and suspended handlers *)

Inductive Request : Type :=
| GetHealth
| PostUpload (files : list File.t)
| PostQuery (query : string) (n_results : Z).

(** The text of an [alert].  [Uploaded n] stands for the template
    [`Successfully uploaded ${n} document(s)`]. *)
Inductive AlertText : Type :=
| Text (s : string)
| Uploaded (n : jsval).

Inductive Effect : Type :=
| Fetch (rid : nat) (req : Request)
| Alert (msg : AlertText)
| ConsoleError (label : string).

(** A handler suspended at its [await fetch(...)], with the locals that the
    rest of its body reads. *)
Inductive Continuation : Type :=
| KHealth
| KUpload (newFiles : list Job.t)
| KQuery (userMessage : Message.t).

(** How a request settles: [fetch] rejects (transport failure), or it
    resolves with a response of some status whose body [response.json()]
    parses ([Some]) or rejects ([None]).  [fetch] resolves whatever the
    status is. *)
Inductive Outcome : Type :=
| Rejected
| Responded (status : Z) (body : option jsval).

Record State : Type := mkState {
  uploadedFiles : list Job.t;
  processingStatus : gmap string Status;
  messages : list Message.t;
  inputMessage : string;
  isThinking : bool;
  collectionInfo : CollectionInfo.t;
  inflight : gmap nat Continuation;
  next_rid : nat;
  trace : list Effect
}.

(** The [useState] initial values; [ts] is the [new Date()] of the greeting. *)
Definition greeting (ts : Z) : Message.t :=
  Message.mk "1" assistant
    (JStr "Hello! I can help you find information from the document database. Ask me anything!")
    None ts.

Definition initState (ts : Z) : State :=
  {| uploadedFiles := [];
     processingStatus := ∅;
     messages := [greeting ts];
     inputMessage := "";
     isThinking := false;
     collectionInfo := CollectionInfo.mk (JInt 0) (JInt 0);
     inflight := ∅;
     next_rid := 0%nat;
     trace := [] |}.

(** ** Handlers as state transformers that may throw *)

Inductive Completion (A : Type) : Type :=
| Normal (a : A)
| Throw.
Arguments Normal {A} a.
Arguments Throw {A}.

Definition Js (A : Type) : Type := State → Completion A * State.

Global Instance Js_ret : MRet Js := λ A a st, (Normal a, st).

Global Instance Js_bind : MBind Js := λ A B f m st,
  match m st with
  | (Normal a, st') => f a st'
  | (Throw, st') => (Throw, st')
  end.

(** [try { body } catch (error) { handler }] *)
Definition try_catch (body handler : Js unit) : Js unit := λ st,
  match body st with
  | (Normal a, st') => (Normal a, st')
  | (Throw, st') => handler st'
  end.

Definition get_state : Js State := λ st, (Normal st, st).

Definition modify (f : State → State) : Js unit := λ st, (Normal (), f st).

Definition throw_if_none {A : Type} (o : option A) : Js A := λ st,
  match o with
  | Some a => (Normal a, st)
  | None => (Throw, st)
  end.

(** [list.forEach(f)] *)
Fixpoint forEach {A : Type} (l : list A) (f : A → Js unit) : Js unit :=
  match l with
  | [] => mret ()
  | x :: rest => f x;; forEach rest f
  end.

(** The state setters. *)
Definition setUploadedFiles (f : list Job.t → list Job.t) : Js unit :=
  modify (λ st,
    mkState (f (uploadedFiles st)) (processingStatus st) (messages st)
      (inputMessage st) (isThinking st) (collectionInfo st) (inflight st)
      (next_rid st) (trace st)).

Definition setProcessingStatus
    (f : gmap string Status → gmap string Status) : Js unit :=
  modify (λ st,
    mkState (uploadedFiles st) (f (processingStatus st)) (messages st)
      (inputMessage st) (isThinking st) (collectionInfo st) (inflight st)
      (next_rid st) (trace st)).

Definition setMessages (f : list Message.t → list Message.t) : Js unit :=
  modify (λ st,
    mkState (uploadedFiles st) (processingStatus st) (f (messages st))
      (inputMessage st) (isThinking st) (collectionInfo st) (inflight st)
      (next_rid st) (trace st)).

Definition setInputMessage (v : string) : Js unit :=
  modify (λ st,
    mkState (uploadedFiles st) (processingStatus st) (messages st)
      v (isThinking st) (collectionInfo st) (inflight st)
      (next_rid st) (trace st)).

Definition setIsThinking (v : bool) : Js unit :=
  modify (λ st,
    mkState (uploadedFiles st) (processingStatus st) (messages st)
      (inputMessage st) v (collectionInfo st) (inflight st)
      (next_rid st) (trace st)).

Definition setCollectionInfo (v : CollectionInfo.t) : Js unit :=
  modify (λ st,
    mkState (uploadedFiles st) (processingStatus st) (messages st)
      (inputMessage st) (isThinking st) v (inflight st)
      (next_rid st) (trace st)).

(** The outside world. *)
Definition emit (e : Effect) : Js unit :=
  modify (λ st,
    mkState (uploadedFiles st) (processingStatus st) (messages st)
      (inputMessage st) (isThinking st) (collectionInfo st) (inflight st)
      (next_rid st) (trace st ++ [e])).

Definition alert (msg : AlertText) : Js unit := emit (Alert msg).

Definition console_error (label : string) : Js unit :=
  emit (ConsoleError label).

(** [await fetch(req)]: the request leaves, and the rest of the handler,
    [k], waits for it under a fresh request number. *)
Definition fetch (req : Request) (k : Continuation) : Js unit :=
  modify (λ st,
    mkState (uploadedFiles st) (processingStatus st) (messages st)
      (inputMessage st) (isThinking st) (collectionInfo st)
      (<[next_rid st := k]> (inflight st))
      (S (next_rid st)) (trace st ++ [Fetch (next_rid st) req])).

(** The value of [await response.json()] after [await fetch(...)], when
    there is one. *)
Definition json_body (o : Outcome) : option jsval :=
  match o with
  | Rejected => None
  | Responded _ body => body
  end.

(** Both rejections land in the enclosing [catch]. *)
Definition await_json (o : Outcome) : Js jsval := throw_if_none (json_body o).

Definition prop (v : jsval) (p : PropName) : Js jsval :=
  throw_if_none (get_prop v p).

(** *** [loadCollectionInfo] *)

Definition loadCollectionInfo : Js unit := fetch GetHealth KHealth.

Definition loadCollectionInfo_resume (o : Outcome) : Js unit :=
  try_catch
    (data ← await_json o;
     c1 ← prop data p_collection;
     dc ← prop c1 p_document_count;
     c2 ← prop data p_collection;
     tc ← prop c2 p_document_count;
     setCollectionInfo (CollectionInfo.mk dc tc))
    (console_error "Failed to load collection info:").

(** *** [handleFileUpload] *)

(** The object that [files.map] builds for one file; [rnd] is the value of
    [Math.random().toString(36).substr(2, 9)] drawn for it. *)
Definition new_job (fr : File.t * string) : Job.t :=
  Job.mk fr.2 (File.name fr.1) (File.size fr.1)
    (extension (File.name fr.1)) pending.

Definition mark (newFiles : list Job.t) (s : Status) : Js unit :=
  forEach newFiles (λ file,
    setProcessingStatus (λ prev, <[Job.id file := s]> prev)).

(** [setUploadedFiles(prev => [...prev, ...newFiles])] *)
Definition append_jobs (newFiles : list Job.t) : Js unit :=
  setUploadedFiles (λ prev, prev ++ newFiles).

(** The [try] block up to its [await fetch]. *)
Definition dispatch (files : list File.t) (newFiles : list Job.t) : Js unit :=
  mark newFiles processing;;
  fetch (PostUpload files) (KUpload newFiles).

Definition handleFileUpload (sel : list (File.t * string)) : Js unit :=
  let files := sel.*1 in
  if (List.length files =? 0)%nat then mret () else
  let newFiles := new_job <$> sel in
  append_jobs newFiles;;
  dispatch files newFiles.

Definition upload_failed_notice : string :=
  "Upload failed. Make sure the backend is running at " +:+ API_BASE.

Definition handleFileUpload_resume
    (newFiles : list Job.t) (o : Outcome) : Js unit :=
  try_catch
    (results ← await_json o;
     mark newFiles completed;;
     loadCollectionInfo;;
     n ← prop results p_length;
     alert (Uploaded n))
    (console_error "Upload failed:";;
     alert (Text upload_failed_notice);;
     mark newFiles error).

(** *** [handleSendMessage] *)

Definition query_failed_notice : string :=
  "Sorry, I encountered an error. Please make sure the backend is running at "
  +:+ API_BASE.

(** [now] is [Date.now()] and [ts] is [new Date()]. *)
Definition handleSendMessage (now ts : Z) : Js unit :=
  st ← get_state;
  if negb (truthy (JStr (trim (inputMessage st)))) || isThinking st
  then mret ()
  else
    let userMessage :=
      Message.mk (toString now) user (JStr (inputMessage st)) None ts in
    setMessages (λ prev, prev ++ [userMessage]);;
    setInputMessage "";;
    setIsThinking true;;
    fetch (PostQuery (inputMessage st) 5) (KQuery userMessage).

Definition handleSendMessage_resume (o : Outcome) (now ts : Z) : Js unit :=
  try_catch
    (data ← await_json o;
     answer ← prop data p_answer;
     srcs ← prop data p_sources;
     let assistantMessage :=
       Message.mk (toString (now + 1)) assistant answer
         (Some (js_or srcs (JArr []))) ts in
     setMessages (λ prev, prev ++ [assistantMessage]))
    (console_error "Query failed:";;
     let errorMessage :=
       Message.mk (toString (now + 1)) assistant
         (JStr query_failed_notice) None ts in
     setMessages (λ prev, prev ++ [errorMessage]));;
  setIsThinking false.

(** *** [removeFile] *)

Definition removeFile (fileId : string) : Js unit :=
  setUploadedFiles (λ prev, filter (λ f, Job.id f ≠ fileId) prev);;
  setProcessingStatus (λ prev, delete fileId prev).

(** ** The session as a transition system *)

Inductive Event : Type :=
| Mount
| ChangeInput (value : string)
| SendMessage (now ts : Z)
| SelectFiles (sel : list (File.t * string))
| RemoveFile (fileId : string)
| Settle (rid : nat) (o : Outcome) (now ts : Z).

Definition resume (k : Continuation) (o : Outcome) (now ts : Z) : Js unit :=
  match k with
  | KHealth => loadCollectionInfo_resume o
  | KUpload newFiles => handleFileUpload_resume newFiles o
  | KQuery _ => handleSendMessage_resume o now ts
  end.

(** The settled request stops waiting. *)
Definition retire (rid : nat) : Js unit :=
  modify (λ st,
    mkState (uploadedFiles st) (processingStatus st) (messages st)
      (inputMessage st) (isThinking st) (collectionInfo st)
      (delete rid (inflight st)) (next_rid st) (trace st)).

Definition exec (m : Js unit) (st : State) : State := (m st).2.

(** [None]: the event cannot happen in [st] (no such request is waiting). *)
Definition step (st : State) (ev : Event) : option State :=
  match ev with
  | Mount => Some (exec loadCollectionInfo st)
  | ChangeInput value => Some (exec (setInputMessage value) st)
  | SendMessage now ts => Some (exec (handleSendMessage now ts) st)
  | SelectFiles sel => Some (exec (handleFileUpload sel) st)
  | RemoveFile fileId => Some (exec (removeFile fileId) st)
  | Settle rid o now ts =>
      match inflight st !! rid with
      | Some k => Some (exec (retire rid;; resume k o now ts) st)
      | None => None
      end
  end.

Fixpoint run (st : State) (evs : list Event) : option State :=
  match evs with
  | [] => Some st
  | ev :: rest =>
      match step st ev with
      | Some st' => run st' rest
      | None => None
      end
  end.

(** What the file list shows for a job: [processingStatus[file.id] || 'pending']. *)
Definition shown_status (st : State) (fileId : string) : Status :=
  default pending (processingStatus st !! fileId).

Definition job_ids (jobs : list Job.t) : list string := Job.id <$> jobs.

(** The tracked sequence as the user sees it: every job with its status. *)
Definition tracked_jobs (st : State) : list (Job.t * Status) :=
  (λ f, (f, shown_status st (Job.id f))) <$> uploadedFiles st.

(** ** Notions used by the statements *)

(** *** What a handler reads from a settled request *)

(** [data.answer] and [data.sources], as the [try] block of the resumed
    [handleSendMessage] reads them; [None] when the block throws. *)
Definition answer_of (o : Outcome) : option (jsval * jsval) :=
  data ← json_body o;
  answer ← get_prop data p_answer;
  srcs ← get_prop data p_sources;
  Some (answer, srcs).

(** [data.collection.document_count], as the [try] block of the resumed
    [loadCollectionInfo] reads it; [None] when the block throws. *)
Definition count_of (o : Outcome) : option jsval :=
  data ← json_body o;
  collection ← get_prop data p_collection;
  get_prop collection p_document_count.

(** *** The values that the handlers build *)

(** The guard of [handleSendMessage]: [!inputMessage.trim() || isThinking]. *)
Definition send_blocked (st : State) : bool :=
  negb (truthy (JStr (trim (inputMessage st)))) || isThinking st.

Definition userMessage (st : State) (now ts : Z) : Message.t :=
  Message.mk (toString now) user (JStr (inputMessage st)) None ts.

Definition assistantMessage (data_answer data_sources : jsval)
    (now ts : Z) : Message.t :=
  Message.mk (toString (now + 1)) assistant data_answer
    (Some (js_or data_sources (JArr []))) ts.

Definition errorMessage (now ts : Z) : Message.t :=
  Message.mk (toString (now + 1)) assistant (JStr query_failed_notice)
    None ts.

(** The message that a settled query puts into the transcript. *)
Definition reply (o : Outcome) (now ts : Z) : Message.t :=
  match answer_of o with
  | Some (answer, srcs) => assistantMessage answer srcs now ts
  | None => errorMessage now ts
  end.

(** The status map after [newFiles.forEach] has set every id to [s]. *)
Definition marked (newFiles : list Job.t) (s : Status)
    (m : gmap string Status) : gmap string Status :=
  foldl (λ acc file, <[Job.id file := s]> acc) m newFiles.

(** *** Failure in the words of the specification *)

(** A request that did not succeed: a transport failure, or a response whose
    status is not 2xx. *)
Definition is_2xx (status : Z) : bool :=
  (200 <=? status) && (status <=? 299).

Definition request_failed (o : Outcome) : bool :=
  match o with
  | Rejected => true
  | Responded status _ => negb (is_2xx status)
  end.

(** *** Invariants of the session *)

Definition counts_agree (st : State) : Prop :=
  CollectionInfo.total_chunks (collectionInfo st)
  = CollectionInfo.document_count (collectionInfo st).

(** While a query waits, the flag is up and its user message closes the
    transcript; and there is only one such query. *)
Definition one_query (st : State) : Prop :=
  (∀ rid u, inflight st !! rid = Some (KQuery u) →
     isThinking st = true
     ∧ ∃ prefix, messages st = prefix ++ [u] ∧ Message.role u = user)
  ∧ (∀ r1 r2 u1 u2,
       inflight st !! r1 = Some (KQuery u1) →
       inflight st !! r2 = Some (KQuery u2) → r1 = r2).

(** Request numbers are handed out in increasing order. *)
Definition rids_fresh (st : State) : Prop :=
  ∀ rid k, inflight st !! rid = Some k → (rid < next_rid st)%nat.

(** *** Sample inputs *)

Definition refund_response : jsval :=
  JObj [("answer", JStr "30 days");
        ("sources",
         JArr [JObj [("filename", JStr "policy.pdf");
                     ("page", JInt 3);
                     ("relevance", JNum (Qmake 92 100))]])].

Definition health_response (n : Z) : jsval :=
  JObj [("status", JStr "healthy");
        ("collection", JObj [("document_count", JInt n)])].

Definition two_files : list (File.t * string) :=
  [(File.mk "a.pdf" 10, "k3x9q0z1a"); (File.mk "b.DOCX" 20, "p07qw5e2r")].

Definition two_more_files : list (File.t * string) :=
  [(File.mk "c.txt" 30, "m4n8b2v6c"); (File.mk "d.pdf" 40, "z1y2x3w4u")].

(** Two files for which [Math.random] gave the same id: nothing in
    [handleFileUpload] checks the ids it draws. *)
Definition same_id_files : list (File.t * string) :=
  [(File.mk "a.pdf" 10, "k3x9q0z1a"); (File.mk "b.DOCX" 20, "k3x9q0z1a")].

(** *** The chunk count on the dashboard *)

(** [analytics.totalChunks]: the [analytics] cell starts with the literal
    846 and [setAnalytics] is never called. *)
Definition analytics_totalChunks : Z := 846.

(** The number under "Total Chunks" on the dashboard of [App.js], before
    [toLocaleString]: the card reads [analytics.totalChunks], and no element
    of that component reads [collectionInfo.total_chunks]. *)
Definition shown_total_chunks (st : State) : jsval :=
  JInt analytics_totalChunks.

(** ** The rest of the component *)

(** *** [formatFileSize] *)

(** [x.toFixed(1)] for the exact non-negative quotient [x = num / den]: the
    tenths [n] nearest to [x], the larger one on a tie, printed with one
    digit after the point.  This is what [toFixed] returns for [x] below
    1e21; from there on it returns exponent notation, which is not
    modelled.  The two divisors of [formatFileSize] are powers of two, so
    for a byte count that a JavaScript number holds exactly (below 2^53)
    the quotient is exact and far below 1e21: [formatFileSize] stands for
    the code on byte counts below 2^53 only, and the statements about it
    carry that bound. *)
Definition tenths (num den : Z) : Z := (20 * num + den) / (2 * den).

Definition toFixed1 (num den : Z) : string :=
  let n := tenths num den in
  toString (n / 10) +:+ "." +:+ toString (n mod 10).

Definition formatFileSize (bytes : N) : string :=
  let b := Z.of_N bytes in
  if b <? 1024 then toString b +:+ " B"
  else if b <? 1024 * 1024 then toFixed1 b 1024 +:+ " KB"
  else toFixed1 b (1024 * 1024) +:+ " MB".

(** *** [getStatusIcon] *)

Inductive IconName : Type := Loader | CheckCircle | X.

(** The element that [getStatusIcon] returns: the component and its
    [className]. *)
Record Icon : Type := mkIcon {
  icon_component : IconName;
  icon_className : string
}.

Definition getStatusIcon (status : string) : Icon :=
  if String.eqb status "processing"
  then mkIcon Loader "w-4 h-4 text-blue-500 animate-spin"
  else if String.eqb status "completed"
  then mkIcon CheckCircle "w-4 h-4 text-green-500"
  else if String.eqb status "error"
  then mkIcon X "w-4 h-4 text-red-500"
  else mkIcon Loader "w-4 h-4 text-yellow-500".

(** The icon in the row of a job: [getStatusIcon(processingStatus[file.id]
    || 'pending')]. *)
Definition row_icon (st : State) (fileId : string) : Icon :=
  getStatusIcon (status_text (shown_status st fileId)).

(** *** [useKonamiCode] *)

Definition konamiCode : list string :=
  ["ArrowUp"; "ArrowUp"; "ArrowDown"; "ArrowDown"; "ArrowLeft";
   "ArrowRight"; "ArrowLeft"; "ArrowRight"; "b"; "a"].

(** [keys.join(',')] *)
Fixpoint join_comma (keys : list string) : string :=
  match keys with
  | [] => ""
  | [k] => k
  | k :: rest => k +:+ "," +:+ join_comma rest
  end.

(** [keys.slice(-10)] *)
Definition slice_last10 (keys : list string) : list string :=
  drop (length keys - 10) keys.

(** The updater that [handleKeyDown] hands to [setKeys]: the new buffer,
    and whether [callback] was called. *)
Definition handleKeyDown (key : string) (prev : list string)
    : list string * bool :=
  let newKeys := slice_last10 (prev ++ [key]) in
  if String.eqb (join_comma newKeys) (join_comma konamiCode)
  then ([], true)
  else (newKeys, false).

(** A run of key presses: the buffer at the end and the number of calls of
    [callback]. *)
Definition press (acc : list string * nat) (key : string)
    : list string * nat :=
  let '(keys, fired) := handleKeyDown key acc.1 in
  (keys, if fired then S acc.2 else acc.2).

Definition type_keys (prev : list string) (typed : list string)
    : list string * nat :=
  foldl press (prev, 0%nat) typed.

(** *** Notions for the properties of the strings *)

Fixpoint all_ws (s : string) : bool :=
  match s with
  | EmptyString => true
  | String c rest => is_ws c && all_ws rest
  end.


Fixpoint last_char (s : string) : option ascii :=
  match s with
  | EmptyString => None
  | String c EmptyString => Some c
  | String _ rest => last_char rest
  end.

(** *** Further invariants of the session *)

Definition alternating (n : nat) : list Role :=
  concat (replicate n [user; assistant]).

(** The roles of the transcript: the greeting, then question and answer in
    turn, and one more question exactly while the flag is up. *)
Definition paired (st : State) : Prop :=
  ∃ n, Message.role <$> messages st
       = assistant :: alternating n
         ++ (if isThinking st then [user] else []).

(** The flag is up exactly while a query waits. *)
Definition flag_tracks_query (st : State) : Prop :=
  isThinking st = true ↔ ∃ rid u, inflight st !! rid = Some (KQuery u).

(** A waiting query was sent with the text of its question, asking for 5
    results; a waiting upload was sent with the files of its batch. *)
Definition requests_match (st : State) : Prop :=
  (∀ rid u, inflight st !! rid = Some (KQuery u) →
     ∃ text, Message.content u = JStr text
             ∧ Fetch rid (PostQuery text 5) ∈ trace st)
  ∧ (∀ rid b, inflight st !! rid = Some (KUpload b) →
       ∃ files, Fetch rid (PostUpload files) ∈ trace st
                ∧ File.name <$> files = Job.name <$> b
                ∧ File.size <$> files = Job.size <$> b).

(** Every tracked job has kept the [status] it was created with, and has an
    entry in the status map, which never holds [pending]. *)
Definition statuses_set (st : State) : Prop :=
  (∀ f, f ∈ uploadedFiles st →
     Job.status f = pending
     ∧ is_Some (processingStatus st !! Job.id f))
  ∧ (∀ i, processingStatus st !! i ≠ Some pending).

(** ** Basic facts about the handlers *)

Ltac js_unfold :=
  cbv [exec mbind Js_bind mret Js_ret try_catch get_state modify
       throw_if_none await_json prop
       setUploadedFiles setProcessingStatus setMessages setInputMessage
       setIsThinking setCollectionInfo emit alert console_error fetch
       retire loadCollectionInfo append_jobs].

(** Reads the fields of an explicit state record. *)
Ltac fields :=
  cbn [uploadedFiles processingStatus messages inputMessage isThinking
       collectionInfo inflight next_rid trace].

Lemma mark_run newFiles s st :
  mark newFiles s st =
  (Normal (),
   mkState (uploadedFiles st) (marked newFiles s (processingStatus st))
     (messages st) (inputMessage st) (isThinking st) (collectionInfo st)
     (inflight st) (next_rid st) (trace st)).
Proof.
  revert st. induction newFiles as [|file rest IH]; intros st.
  - by destruct st.
  - unfold mark in *. cbn [forEach]. js_unfold. rewrite IH. reflexivity.
Qed.

Lemma marked_lookup newFiles s m i :
  marked newFiles s m !! i =
  if decide (i ∈ job_ids newFiles) then Some s else m !! i.
Proof.
  revert m. induction newFiles as [|file rest IH]; intros m; cbn.
  - case_decide as H; [by apply elem_of_nil in H | done].
  - unfold marked in IH. rewrite IH. unfold job_ids.
    destruct (decide (i ∈ Job.id <$> rest)) as [Hin|Hnin].
    + rewrite decide_True; [done | by right].
    + destruct (decide (i = Job.id file)) as [->|Hne].
      * rewrite decide_True; [|by left]. by rewrite lookup_insert_eq.
      * rewrite decide_False.
        -- by rewrite lookup_insert_ne.
        -- intros Hc. apply elem_of_cons in Hc as [?|?]; done.
Qed.

(** The three ways in which a settled upload resumes [handleFileUpload]. *)
Lemma upload_resume_caught rid newFiles o st :
  json_body o = None →
  exec (retire rid;; handleFileUpload_resume newFiles o) st =
  mkState (uploadedFiles st) (marked newFiles error (processingStatus st))
    (messages st) (inputMessage st) (isThinking st) (collectionInfo st)
    (delete rid (inflight st)) (next_rid st)
    ((trace st ++ [ConsoleError "Upload failed:"])
       ++ [Alert (Text upload_failed_notice)]).
Proof.
  intros Hbody. unfold handleFileUpload_resume. js_unfold.
  rewrite Hbody. by rewrite mark_run.
Qed.

Lemma upload_resume_parsed rid newFiles o st results n :
  json_body o = Some results →
  get_prop results p_length = Some n →
  exec (retire rid;; handleFileUpload_resume newFiles o) st =
  mkState (uploadedFiles st) (marked newFiles completed (processingStatus st))
    (messages st) (inputMessage st) (isThinking st) (collectionInfo st)
    (<[next_rid st := KHealth]> (delete rid (inflight st))) (S (next_rid st))
    ((trace st ++ [Fetch (next_rid st) GetHealth]) ++ [Alert (Uploaded n)]).
Proof.
  intros Hbody Hlen. unfold handleFileUpload_resume. js_unfold.
  rewrite Hbody, mark_run. cbn. by rewrite Hlen.
Qed.

Lemma upload_resume_no_length rid newFiles o st results :
  json_body o = Some results →
  get_prop results p_length = None →
  exec (retire rid;; handleFileUpload_resume newFiles o) st =
  mkState (uploadedFiles st)
    (marked newFiles error (marked newFiles completed (processingStatus st)))
    (messages st) (inputMessage st) (isThinking st) (collectionInfo st)
    (<[next_rid st := KHealth]> (delete rid (inflight st))) (S (next_rid st))
    (((trace st ++ [Fetch (next_rid st) GetHealth])
        ++ [ConsoleError "Upload failed:"])
       ++ [Alert (Text upload_failed_notice)]).
Proof.
  intros Hbody Hlen. unfold handleFileUpload_resume. js_unfold.
  rewrite Hbody, mark_run. cbn. rewrite Hlen. by rewrite mark_run.
Qed.

Lemma query_resume_answered rid o now ts st answer srcs :
  answer_of o = Some (answer, srcs) →
  exec (retire rid;; handleSendMessage_resume o now ts) st =
  mkState (uploadedFiles st) (processingStatus st)
    (messages st ++ [assistantMessage answer srcs now ts])
    (inputMessage st) false (collectionInfo st)
    (delete rid (inflight st)) (next_rid st) (trace st).
Proof.
  unfold answer_of, handleSendMessage_resume. js_unfold.
  destruct (json_body o) as [data|]; cbn; [|done].
  destruct (get_prop data p_answer) as [a|]; cbn; [|done].
  destruct (get_prop data p_sources) as [s|]; cbn; [|done].
  by intros [= -> ->].
Qed.

Lemma query_resume_caught rid o now ts st :
  answer_of o = None →
  exec (retire rid;; handleSendMessage_resume o now ts) st =
  mkState (uploadedFiles st) (processingStatus st)
    (messages st ++ [errorMessage now ts])
    (inputMessage st) false (collectionInfo st)
    (delete rid (inflight st)) (next_rid st)
    (trace st ++ [ConsoleError "Query failed:"]).
Proof.
  unfold answer_of, handleSendMessage_resume. js_unfold.
  destruct (json_body o) as [data|]; cbn; [|done].
  destruct (get_prop data p_answer) as [a|]; cbn; [|done].
  destruct (get_prop data p_sources) as [s|]; cbn; [done|done].
Qed.

Lemma health_resume_read rid o st dc :
  count_of o = Some dc →
  exec (retire rid;; loadCollectionInfo_resume o) st =
  mkState (uploadedFiles st) (processingStatus st) (messages st)
    (inputMessage st) (isThinking st) (CollectionInfo.mk dc dc)
    (delete rid (inflight st)) (next_rid st) (trace st).
Proof.
  unfold count_of, loadCollectionInfo_resume. js_unfold.
  destruct (json_body o) as [data|]; cbn; [|done].
  destruct (get_prop data p_collection) as [c|]; cbn; [|done].
  destruct (get_prop c p_document_count) as [d|]; cbn; [|done].
  by intros [= ->].
Qed.

Lemma health_resume_caught rid o st :
  count_of o = None →
  exec (retire rid;; loadCollectionInfo_resume o) st =
  mkState (uploadedFiles st) (processingStatus st) (messages st)
    (inputMessage st) (isThinking st) (collectionInfo st)
    (delete rid (inflight st)) (next_rid st)
    (trace st ++ [ConsoleError "Failed to load collection info:"]).
Proof.
  unfold count_of, loadCollectionInfo_resume. js_unfold.
  destruct (json_body o) as [data|]; cbn; [|done].
  destruct (get_prop data p_collection) as [c|]; cbn; [|done].
  destruct (get_prop c p_document_count) as [d|]; cbn; [done|done].
Qed.

(** ** The transcript *)

(** C3. [handleSendMessage] does nothing at all when the text of the input
    is empty after trimming, and nothing at all while a response is awaited,
    whatever the text: the transcript, the flag, the input buffer and every
    other part of the state stay as they are, and no request leaves (the
    trace and the waiting requests are part of the state). *)
Theorem submit_blank_or_busy_is_noop (st : State) (now ts : Z) :
  trim (inputMessage st) = "" ∨ isThinking st = true →
  step st (SendMessage now ts) = Some st.
Proof.
  intros Hguard. cbn [step]. f_equal.
  unfold handleSendMessage. js_unfold.
  destruct Hguard as [Hblank|Hbusy].
  - rewrite Hblank. cbn. by destruct st.
  - rewrite Hbusy, orb_true_r. by destruct st.
Qed.

Lemma submit_blank_or_busy_is_noop_witness :
  let blank := exec (setInputMessage "   ") (initState 0) in
  let busy :=
    exec (setInputMessage "again?")
      (exec (handleSendMessage 5 6)
         (exec (setInputMessage "hello") (initState 0))) in
  (inputMessage blank = "   " ∧ step blank (SendMessage 7 8) = Some blank)
  ∧ (isThinking busy = true ∧ inputMessage busy = "again?"
     ∧ step busy (SendMessage 7 8) = Some busy).
Proof.
  intros blank busy. split.
  - split; [reflexivity|].
    apply (submit_blank_or_busy_is_noop blank 7 8). left. reflexivity.
  - split; [reflexivity|]. split; [reflexivity|].
    apply (submit_blank_or_busy_is_noop busy 7 8). right. reflexivity.
Defined.

Lemma answer_of_None_iff (o : Outcome) :
  answer_of o = None ↔
  json_body o = None ∨ json_body o = Some JNull
  ∨ json_body o = Some JUndefined.
Proof.
  unfold answer_of. destruct (json_body o) as [data|]; cbn; [|by split; auto].
  destruct data; cbn; split; try done; try (by auto);
    intros [H|[H|H]]; discriminate H.
Qed.

(** C8. When the query settles with a body [data] from which [data.answer]
    and [data.sources] can be read, exactly one assistant message is
    appended after the transcript: its content is [data.answer], its sources
    are [data.sources], or the empty list when the response has no citation
    list, and the flag is back to false. *)
Theorem query_success_builds_answer
    (st : State) (rid : nat) (u : Message.t) (status : Z)
    (data answer srcs : jsval) (now ts : Z) :
  inflight st !! rid = Some (KQuery u) →
  get_prop data p_answer = Some answer →
  get_prop data p_sources = Some srcs →
  ∃ st' a,
    step st (Settle rid (Responded status (Some data)) now ts) = Some st'
    ∧ messages st' = messages st ++ [a]
    ∧ Message.role a = assistant
    ∧ Message.content a = answer
    ∧ Message.sources a = Some (if truthy srcs then srcs else JArr [])
    ∧ (srcs = JUndefined → Message.sources a = Some (JArr []))
    ∧ (∀ items, srcs = JArr items → Message.sources a = Some (JArr items))
    ∧ isThinking st' = false.
Proof.
  intros Hk Ha Hs.
  assert (answer_of (Responded status (Some data)) = Some (answer, srcs))
    as Hread by (unfold answer_of; cbn; by rewrite Ha, Hs).
  eexists _, (assistantMessage answer srcs now ts).
  split; [cbn [step]; rewrite Hk; reflexivity|].
  cbn [resume]. rewrite (query_resume_answered _ _ _ _ _ _ _ Hread).
  cbn. repeat split; try done.
  - by intros ->.
  - by intros items ->.
Qed.

(** The scenario of C8: the question about the refund policy. *)
Lemma query_success_builds_answer_witness :
  ∃ st,
    run (initState 1000)
      [Mount; ChangeInput "What is the refund policy?";
       SendMessage 2000 2001;
       Settle 1 (Responded 200 (Some refund_response)) 3000 3002] = Some st
    ∧ messages st =
      [greeting 1000;
       Message.mk "2000" user (JStr "What is the refund policy?") None 2001;
       Message.mk "3001" assistant (JStr "30 days")
         (Some (JArr [JObj [("filename", JStr "policy.pdf");
                            ("page", JInt 3);
                            ("relevance", JNum (Qmake 92 100))]]))
         3002]
    ∧ isThinking st = false.
Proof.
  pose (asked :=
    exec (handleSendMessage 2000 2001)
      (exec (setInputMessage "What is the refund policy?")
         (exec loadCollectionInfo (initState 1000)))).
  destruct (query_success_builds_answer asked 1
              (Message.mk "2000" user (JStr "What is the refund policy?")
                 None 2001)
              200 refund_response (JStr "30 days")
              (JArr [JObj [("filename", JStr "policy.pdf");
                           ("page", JInt 3);
                           ("relevance", JNum (Qmake 92 100))]])
              3000 3002 eq_refl eq_refl eq_refl)
    as (st & a & Hstep & Hmsgs & Hrole & Hcontent & Hsrc & _ & _ & Hflag).
  exists st. split; [exact Hstep|]. split; [|exact Hflag].
  rewrite Hmsgs. cbn in Hstep. injection Hstep as <-.
  apply app_inj_tail in Hmsgs as [_ <-]. reflexivity.
Defined.

(** C2, as the code has it.  A settled query always appends exactly one
    assistant message and sets the flag back to false.  The message is the
    fixed failure notice, without a [sources] property, when nothing can be
    read from the response: [fetch] was rejected, the body is not JSON, or
    the body is [null].  The status of the response is not looked at. *)
Theorem query_failure_appends_notice
    (st : State) (rid : nat) (u : Message.t) (o : Outcome) (now ts : Z) :
  inflight st !! rid = Some (KQuery u) →
  ∃ st' a,
    step st (Settle rid o now ts) = Some st'
    ∧ messages st' = messages st ++ [a]
    ∧ Message.role a = assistant
    ∧ isThinking st' = false
    ∧ (answer_of o = None →
       Message.content a = JStr query_failed_notice
       ∧ Message.sources a = None)
    ∧ (answer_of o = None ↔
       json_body o = None ∨ json_body o = Some JNull
       ∨ json_body o = Some JUndefined).
Proof.
  intros Hk. cbn [step]. rewrite Hk. cbn [resume].
  pose proof (answer_of_None_iff o) as Hiff.
  destruct (answer_of o) as [[answer srcs]|] eqn:Hread.
  - eexists _, (assistantMessage answer srcs now ts).
    split; [reflexivity|].
    rewrite (query_resume_answered _ _ _ _ _ _ _ Hread). cbn.
    repeat split; try done; apply Hiff.
  - eexists _, (errorMessage now ts).
    split; [reflexivity|].
    rewrite (query_resume_caught _ _ _ _ _ Hread). cbn.
    repeat split; try done; apply Hiff.
Qed.

Lemma query_failure_appends_notice_witness :
  let asked :=
    exec (handleSendMessage 5 6)
      (exec (setInputMessage "hello") (initState 0)) in
  ∃ st' a,
    step asked (Settle 0 Rejected 7 8) = Some st'
    ∧ messages st' = messages asked ++ [a]
    ∧ Message.content a = JStr query_failed_notice
    ∧ Message.sources a = None
    ∧ isThinking st' = false.
Proof.
  intros asked.
  destruct (query_failure_appends_notice asked 0
              (Message.mk "5" user (JStr "hello") None 6)
              Rejected 7 8 eq_refl)
    as (st' & a & Hstep & Hmsgs & _ & Hflag & Hnotice & _).
  destruct (Hnotice eq_refl) as [Hcontent Hsrc].
  exists st', a. repeat split; assumption.
Defined.

(** C2 as stated fails: a response with status 500 whose body is JSON is
    turned into an answer, not into the failure notice. *)
Lemma query_status_500_is_answered :
  let asked :=
    exec (handleSendMessage 5 6)
      (exec (setInputMessage "hello") (initState 0)) in
  let o :=
    Responded 500 (Some (JObj [("detail", JStr "Internal Server Error")])) in
  request_failed o = true
  ∧ inflight asked !! 0%nat
    = Some (KQuery (Message.mk "5" user (JStr "hello") None 6))
  ∧ ∃ st' a,
      step asked (Settle 0 o 7 8) = Some st'
      ∧ messages st' = messages asked ++ [a]
      ∧ Message.content a = JUndefined
      ∧ Message.content a ≠ JStr query_failed_notice
      ∧ Message.sources a = Some (JArr []).
Proof.
  intros asked o. split; [reflexivity|]. split; [reflexivity|].
  eexists _, _. split; [reflexivity|].
  split; [reflexivity|]. cbn. repeat split; done.
Qed.

(** ** The upload jobs *)

Lemma marked_shown newFiles s m st' i :
  processingStatus st' = marked newFiles s m →
  i ∈ job_ids newFiles → shown_status st' i = s.
Proof.
  intros Hps Hin. unfold shown_status.
  rewrite Hps, marked_lookup. by rewrite decide_True.
Qed.

Lemma marked_frame newFiles s m i :
  i ∉ job_ids newFiles → marked newFiles s m !! i = m !! i.
Proof. intros Hnin. rewrite marked_lookup. by rewrite decide_False. Qed.

Lemma job_id_elem (f : Job.t) (jobs : list Job.t) :
  f ∈ jobs → Job.id f ∈ job_ids jobs.
Proof. intros Hin. unfold job_ids. by apply list_elem_of_fmap_2. Qed.

Lemma new_jobs_pending (sel : list (File.t * string)) (f : Job.t) :
  f ∈ new_job <$> sel → Job.status f = pending.
Proof. intros Hin. apply list_elem_of_fmap in Hin as (fr & -> & _). done. Qed.

Lemma handleFileUpload_run (sel : list (File.t * string)) (st : State) :
  sel ≠ [] →
  exec (handleFileUpload sel) st =
  exec (dispatch sel.*1 (new_job <$> sel))
    (exec (append_jobs (new_job <$> sel)) st).
Proof.
  intros Hne. unfold handleFileUpload.
  destruct sel as [|fr sel]; [done|]. cbn [fmap list_fmap length Nat.eqb].
  js_unfold. reflexivity.
Qed.

Lemma dispatch_run files newFiles st :
  exec (dispatch files newFiles) st =
  mkState (uploadedFiles st) (marked newFiles processing (processingStatus st))
    (messages st) (inputMessage st) (isThinking st) (collectionInfo st)
    (<[next_rid st := KUpload newFiles]> (inflight st)) (S (next_rid st))
    (trace st ++ [Fetch (next_rid st) (PostUpload files)]).
Proof. unfold dispatch. js_unfold. by rewrite mark_run. Qed.

(** C4. A selection of N files, N at least 1: (a) N jobs with status
    [pending] are appended to the tracked sequence while nothing has been
    sent yet; (b) the handler then shows all of them as [processing] and
    sends one request that carries the N files, after which it waits;
    (c) whenever that request settles, in whatever state, all the jobs of
    the batch show one and the same status, [completed] or [error]. *)
Theorem batch_moves_together (st : State) (sel : list (File.t * string)) :
  (0 < length sel)%nat →
  let newFiles := new_job <$> sel in
  let st1 := exec (append_jobs newFiles) st in
  (uploadedFiles st1 = uploadedFiles st ++ newFiles
   ∧ length newFiles = length sel
   ∧ (∀ f, f ∈ newFiles → Job.status f = pending)
   ∧ (∀ f, f ∈ newFiles → processingStatus st !! Job.id f = None →
           shown_status st1 (Job.id f) = pending)
   ∧ trace st1 = trace st ∧ inflight st1 = inflight st)
  ∧ (∃ st2,
       step st (SelectFiles sel) = Some st2
       ∧ st2 = exec (dispatch sel.*1 newFiles) st1
       ∧ uploadedFiles st2 = uploadedFiles st1
       ∧ (∀ f, f ∈ newFiles → shown_status st2 (Job.id f) = processing)
       ∧ trace st2 = trace st ++ [Fetch (next_rid st) (PostUpload sel.*1)]
       ∧ length sel.*1 = length sel
       ∧ inflight st2 !! next_rid st = Some (KUpload newFiles))
  ∧ (∀ st3 rid o now ts,
       inflight st3 !! rid = Some (KUpload newFiles) →
       ∃ st4 s,
         step st3 (Settle rid o now ts) = Some st4
         ∧ (s = completed ∨ s = error)
         ∧ (∀ f, f ∈ newFiles → shown_status st4 (Job.id f) = s)).
Proof.
  intros Hlen newFiles st1.
  assert (sel ≠ []) as Hne by (intros ->; cbn in Hlen; lia).
  split; [|split].
  - subst st1. js_unfold. cbn. repeat split.
    + unfold newFiles. by rewrite length_fmap.
    + intros f Hin. by eapply new_jobs_pending.
    + intros f _ Hfresh. unfold shown_status. cbn. by rewrite Hfresh.
  - eexists. split; [cbn [step]; by rewrite handleFileUpload_run|].
    fold newFiles. fold st1. split; [reflexivity|].
    rewrite dispatch_run. cbn. repeat split.
    + intros f Hin. eapply marked_shown; [reflexivity|].
      by apply job_id_elem.
    + by rewrite length_fmap.
    + subst st1. js_unfold. cbn. by rewrite lookup_insert_eq.
  - intros st3 rid o now ts Hk. cbn [step]. rewrite Hk. cbn [resume].
    destruct (json_body o) as [results|] eqn:Hbody.
    + destruct (get_prop results p_length) as [n|] eqn:Hn.
      * eexists _, completed. split; [reflexivity|]. split; [by left|].
        intros f Hin.
        rewrite (upload_resume_parsed _ _ _ _ _ _ Hbody Hn).
        eapply marked_shown; [reflexivity|]. by apply job_id_elem.
      * eexists _, error. split; [reflexivity|]. split; [by right|].
        intros f Hin.
        rewrite (upload_resume_no_length _ _ _ _ _ Hbody Hn).
        eapply marked_shown; [reflexivity|]. by apply job_id_elem.
    + eexists _, error. split; [reflexivity|]. split; [by right|].
      intros f Hin. rewrite (upload_resume_caught _ _ _ _ Hbody).
      eapply marked_shown; [reflexivity|]. by apply job_id_elem.
Qed.

Lemma batch_moves_together_witness :
  let newFiles := new_job <$> two_files in
  (0 < length two_files)%nat
  ∧ ∃ st2,
      step (initState 0) (SelectFiles two_files) = Some st2
      ∧ uploadedFiles st2 = newFiles
      ∧ (∀ f, f ∈ newFiles → shown_status st2 (Job.id f) = processing)
      ∧ trace st2 = [Fetch 0 (PostUpload two_files.*1)]
      ∧ ∃ st4 s,
          step st2 (Settle 0 (Responded 200 (Some (JArr [JNull; JNull]))) 1 2)
          = Some st4
          ∧ (s = completed ∨ s = error)
          ∧ (∀ f, f ∈ newFiles → shown_status st4 (Job.id f) = s).
Proof.
  intros newFiles.
  assert (0 < length two_files)%nat as Hlen by (cbn; lia).
  split; [exact Hlen|].
  destruct (batch_moves_together (initState 0) two_files Hlen)
    as ((Happ & _) & (st2 & Hstep & _ & Hfiles & Hshown & Htrace & _ & Hk)
        & Hsettle).
  exists st2. split; [exact Hstep|].
  split; [by rewrite Hfiles, Happ|].
  split; [exact Hshown|]. split; [exact Htrace|].
  exact (Hsettle st2 0%nat (Responded 200 (Some (JArr [JNull; JNull]))) 1 2 Hk).
Defined.

(** C1, as the code has it.  When the upload request is rejected, or its
    response has no JSON body, every job of the batch shows [error], the
    user is told so, and no refresh of the collection summary is started:
    the summary is untouched, no request leaves and none is added to those
    waiting.  The status of the response is not looked at. *)
Theorem upload_failure_marks_batch
    (st : State) (rid : nat) (newFiles : list Job.t) (o : Outcome)
    (now ts : Z) :
  inflight st !! rid = Some (KUpload newFiles) →
  json_body o = None →
  ∃ st',
    step st (Settle rid o now ts) = Some st'
    ∧ (∀ f, f ∈ newFiles → processingStatus st' !! Job.id f = Some error)
    ∧ (∀ f, f ∈ newFiles → shown_status st' (Job.id f) = error)
    ∧ collectionInfo st' = collectionInfo st
    ∧ inflight st' = delete rid (inflight st)
    ∧ trace st' =
      (trace st ++ [ConsoleError "Upload failed:"])
        ++ [Alert (Text upload_failed_notice)].
Proof.
  intros Hk Hbody. eexists. split; [cbn [step]; by rewrite Hk|].
  cbn [resume]. rewrite (upload_resume_caught _ _ _ _ Hbody). cbn.
  repeat split; try done.
  - intros f Hin. rewrite marked_lookup.
    rewrite decide_True; [done | by apply job_id_elem].
  - intros f Hin. eapply marked_shown; [reflexivity|].
    by apply job_id_elem.
Qed.

Lemma upload_failure_marks_batch_witness :
  let sent := exec (handleFileUpload two_files) (initState 0) in
  ∃ st',
    step sent (Settle 0 Rejected 1 2) = Some st'
    ∧ shown_status st' "k3x9q0z1a" = error
    ∧ shown_status st' "p07qw5e2r" = error
    ∧ collectionInfo st' = collectionInfo sent
    ∧ inflight st' = delete 0%nat (inflight sent).
Proof.
  intros sent.
  destruct (upload_failure_marks_batch sent 0 (new_job <$> two_files)
              Rejected 1 2 eq_refl eq_refl)
    as (st' & Hstep & _ & Hshown & Hinfo & Hwait & _).
  exists st'. split; [exact Hstep|].
  split; [apply (Hshown (new_job (File.mk "a.pdf" 10, "k3x9q0z1a"))); by left|].
  split; [|by split].
  apply (Hshown (new_job (File.mk "b.DOCX" 20, "p07qw5e2r"))).
  right; by left.
Defined.

(** C1 as stated fails: after a response with status 500 whose body is
    JSON, the jobs of the batch show [completed] and a refresh of the
    collection summary is on its way. *)
Lemma upload_status_500_is_completed :
  let sent := exec (handleFileUpload two_files) (initState 0) in
  let o :=
    Responded 500 (Some (JObj [("detail", JStr "Internal Server Error")])) in
  request_failed o = true
  ∧ inflight sent !! 0%nat = Some (KUpload (new_job <$> two_files))
  ∧ ∃ st',
      step sent (Settle 0 o 1 2) = Some st'
      ∧ shown_status st' "k3x9q0z1a" = completed
      ∧ shown_status st' "p07qw5e2r" = completed
      ∧ shown_status st' "k3x9q0z1a" ≠ error
      ∧ inflight st' !! 1%nat = Some KHealth
      ∧ trace st' =
        [Fetch 0 (PostUpload two_files.*1); Fetch 1 GetHealth;
         Alert (Uploaded JUndefined)].
Proof.
  intros sent o. split; [reflexivity|]. split; [reflexivity|].
  eexists. split; [reflexivity|]. cbn. repeat split; done.
Qed.

Lemma removeFile_run fileId st :
  exec (removeFile fileId) st =
  mkState (filter (λ f, Job.id f ≠ fileId) (uploadedFiles st))
    (delete fileId (processingStatus st))
    (messages st) (inputMessage st) (isThinking st) (collectionInfo st)
    (inflight st) (next_rid st) (trace st).
Proof. unfold removeFile. js_unfold. reflexivity. Qed.

Lemma filter_absent_id (fileId : string) (jobs : list Job.t) :
  fileId ∉ job_ids jobs → filter (λ f, Job.id f ≠ fileId) jobs = jobs.
Proof.
  induction jobs as [|f rest IH]; intros Hnin; [done|].
  cbn in Hnin. apply not_elem_of_cons in Hnin as [Hne Hrest].
  rewrite filter_cons_True; [|done]. by rewrite IH.
Qed.

Lemma filter_drops_id (fileId : string) (jobs : list Job.t) :
  fileId ∉ job_ids (filter (λ f, Job.id f ≠ fileId) jobs).
Proof.
  intros Hin. unfold job_ids in Hin.
  apply list_elem_of_fmap in Hin as (f & Hid & Hf).
  apply list_elem_of_filter in Hf as [Hne _]. done.
Qed.

Lemma filter_unique_id (fileId : string) (jobs : list Job.t) :
  NoDup (job_ids jobs) → fileId ∈ job_ids jobs →
  S (length (filter (λ f, Job.id f ≠ fileId) jobs)) = length jobs.
Proof.
  induction jobs as [|f rest IH]; intros Hnd Hin.
  - by apply elem_of_nil in Hin.
  - cbn in Hnd, Hin. apply NoDup_cons in Hnd as [Hfresh Hnd].
    destruct (decide (Job.id f = fileId)) as [Heq|Hne].
    + rewrite filter_cons_False; [|by intros Hc; apply Hc].
      rewrite filter_absent_id; [done|]. by rewrite <- Heq.
    + rewrite filter_cons_True; [|done]. cbn. f_equal. apply IH; [done|].
      apply elem_of_cons in Hin as [Heq|Hin]; [by symmetry in Heq|done].
Qed.

Lemma filter_count_id (fileId : string) (jobs : list Job.t) :
  (length (filter (λ f, Job.id f ≠ fileId) jobs)
   + length (filter (λ f, Job.id f = fileId) jobs))%nat = length jobs.
Proof.
  induction jobs as [|f rest IH]; [done|].
  destruct (decide (Job.id f = fileId)) as [Heq|Hne].
  - rewrite (filter_cons_False (λ f, Job.id f ≠ fileId)) by (by intros Hc).
    rewrite (filter_cons_True (λ f, Job.id f = fileId)) by done.
    cbn [length]. lia.
  - rewrite (filter_cons_True (λ f, Job.id f ≠ fileId)) by done.
    rewrite (filter_cons_False (λ f, Job.id f = fileId)) by done.
    cbn [length]. lia.
Qed.

Lemma filter_present_id (fileId : string) (jobs : list Job.t) :
  fileId ∈ job_ids jobs →
  (0 < length (filter (λ f, Job.id f = fileId) jobs))%nat.
Proof.
  intros Hin. unfold job_ids in Hin.
  apply list_elem_of_fmap in Hin as (f & Hid & Hf).
  assert (f ∈ filter (λ f, Job.id f = fileId) jobs) as Hkept.
  { apply list_elem_of_filter. by split. }
  destruct (filter _ jobs); [by apply elem_of_nil in Hkept | cbn; lia].
Qed.

(** C5, as the code has it.  [removeFile] never calls the backend (no
    request leaves, none is added to those waiting) and touches neither the
    transcript nor the summary.  Afterwards the id is absent from the
    tracked sequence and has no status; the status shown for any other id
    is as before.  If the id was not tracked, the sequence and the status
    shown for every tracked job are unchanged; a status left under that id
    is deleted, and the whole state is unchanged when there was none.  If
    the id was tracked, every job that carries it goes: the sequence is
    shorter by the number of those jobs, which is at least one, and exactly
    one when the tracked ids are all different. *)
Theorem remove_job_spec (st : State) (fileId : string) :
  ∃ st',
    step st (RemoveFile fileId) = Some st'
    ∧ (trace st' = trace st ∧ inflight st' = inflight st
       ∧ next_rid st' = next_rid st)
    ∧ (messages st' = messages st ∧ isThinking st' = isThinking st
       ∧ inputMessage st' = inputMessage st
       ∧ collectionInfo st' = collectionInfo st)
    ∧ (fileId ∉ job_ids (uploadedFiles st'))
    ∧ processingStatus st' !! fileId = None
    ∧ (∀ i, i ≠ fileId → shown_status st' i = shown_status st i)
    ∧ (fileId ∉ job_ids (uploadedFiles st) →
       uploadedFiles st' = uploadedFiles st
       ∧ (∀ f, f ∈ uploadedFiles st →
               shown_status st' (Job.id f) = shown_status st (Job.id f))
       ∧ tracked_jobs st' = tracked_jobs st
       ∧ (processingStatus st !! fileId = None → st' = st))
    ∧ (fileId ∈ job_ids (uploadedFiles st) →
       NoDup (job_ids (uploadedFiles st)) →
       S (length (uploadedFiles st')) = length (uploadedFiles st))
    ∧ (length (uploadedFiles st')
       + length (filter (λ f, Job.id f = fileId) (uploadedFiles st)))%nat
      = length (uploadedFiles st)
    ∧ (fileId ∈ job_ids (uploadedFiles st) →
       (length (uploadedFiles st') < length (uploadedFiles st))%nat).
Proof.
  eexists. split; [reflexivity|]. rewrite removeFile_run. cbn.
  assert (∀ i, i ≠ fileId →
            shown_status
              (mkState
                 (filter (λ f, Job.id f ≠ fileId) (uploadedFiles st))
                 (delete fileId (processingStatus st)) (messages st)
                 (inputMessage st) (isThinking st) (collectionInfo st)
                 (inflight st) (next_rid st) (trace st)) i
            = shown_status st i) as Hother.
  { intros i Hne. unfold shown_status. cbn. by rewrite lookup_delete_ne. }
  split; [done|]. split; [done|].
  split; [apply filter_drops_id|].
  split; [apply lookup_delete_eq|].
  split; [exact Hother|].
  split.
  - intros Habsent.
    assert (∀ f, f ∈ uploadedFiles st → Job.id f ≠ fileId) as Hids.
    { intros f Hin Heq. apply Habsent. rewrite <- Heq. by apply job_id_elem. }
    split; [by apply filter_absent_id|]. split; [|split].
    + intros f Hin. by apply Hother, Hids.
    + unfold tracked_jobs. fields. rewrite filter_absent_id; [|done].
      apply list_fmap_ext. intros k f Hlook. f_equal.
      apply Hother, Hids. by eapply list_elem_of_lookup_2.
    + intros Hnone. rewrite filter_absent_id; [|done].
      rewrite delete_id; [|done]. by destruct st.
  - split; [|split].
    + intros Hin Hnd. by apply filter_unique_id.
    + apply filter_count_id.
    + intros Hin. pose proof (filter_count_id fileId (uploadedFiles st)).
      pose proof (filter_present_id fileId (uploadedFiles st) Hin). lia.
Qed.

Lemma remove_job_spec_witness :
  let sent := exec (handleFileUpload two_files) (initState 0) in
  (∃ st',
     step sent (RemoveFile "k3x9q0z1a") = Some st'
     ∧ trace st' = trace sent
     ∧ S (length (uploadedFiles st')) = length (uploadedFiles sent)
     ∧ ("k3x9q0z1a" ∉ job_ids (uploadedFiles st'))
     ∧ processingStatus st' !! "k3x9q0z1a" = None)
  ∧ step sent (RemoveFile "nosuchid") = Some sent.
Proof.
  intros sent. split.
  - destruct (remove_job_spec sent "k3x9q0z1a")
      as (st' & Hstep & (Htrace & _) & _ & Habsent & Hstatus & _ & _ & Hlen
          & _).
    exists st'. split; [exact Hstep|]. split; [exact Htrace|].
    split; [|by split].
    apply Hlen; [by left|].
    apply NoDup_cons. split.
    + intros Hin. apply list_elem_of_singleton in Hin. discriminate Hin.
    + apply NoDup_singleton.
  - destruct (remove_job_spec sent "nosuchid")
      as (st' & Hstep & _ & _ & _ & _ & _ & Hnot & _).
    rewrite Hstep. f_equal.
    apply Hnot; [|reflexivity].
    intros Hin. apply elem_of_cons in Hin as [Heq|Hin]; [discriminate Heq|].
    apply list_elem_of_singleton in Hin. discriminate Hin.
Defined.

(** ** Every step, case by case *)

(** C5 as stated fails.  When two tracked jobs drew the same id, removing
    that id takes both rows away, not one.  And an id that is not tracked
    can still have a status, left by a batch that settled after its job was
    removed: removing that id again changes the state. *)
Lemma remove_is_not_always_one_row_or_noop :
  let twins := exec (handleFileUpload same_id_files) (initState 0) in
  let stale :=
    exec (retire 0;; handleFileUpload_resume (new_job <$> two_files) Rejected)
      (exec (removeFile "k3x9q0z1a")
         (exec (handleFileUpload two_files) (initState 0))) in
  ("k3x9q0z1a" ∈ job_ids (uploadedFiles twins)
   ∧ length (uploadedFiles twins) = 2%nat
   ∧ ∃ st',
       step twins (RemoveFile "k3x9q0z1a") = Some st'
       ∧ length (uploadedFiles st') = 0%nat
       ∧ S (length (uploadedFiles st')) ≠ length (uploadedFiles twins))
  ∧ (run (initState 0)
       [SelectFiles two_files; RemoveFile "k3x9q0z1a"; Settle 0 Rejected 1 2]
     = Some stale
     ∧ ("k3x9q0z1a" ∉ job_ids (uploadedFiles stale))
     ∧ processingStatus stale !! "k3x9q0z1a" = Some error
     ∧ ∃ st',
         step stale (RemoveFile "k3x9q0z1a") = Some st'
         ∧ processingStatus st' !! "k3x9q0z1a" = None
         ∧ st' ≠ stale).
Proof.
  intros twins stale. split.
  - split; [by left|]. split; [reflexivity|].
    eexists. split; [reflexivity|]. split; [reflexivity|].
    intros Heq. vm_compute in Heq. discriminate Heq.
  - split; [reflexivity|]. split.
    { intros Hin. apply list_elem_of_singleton in Hin. discriminate Hin. }
    split; [reflexivity|].
    eexists. split; [reflexivity|]. split; [reflexivity|].
    intros Heq. apply (f_equal (λ s, processingStatus s !! "k3x9q0z1a")) in Heq.
    vm_compute in Heq. discriminate Heq.
Qed.

Lemma loadCollectionInfo_run st :
  exec loadCollectionInfo st =
  mkState (uploadedFiles st) (processingStatus st) (messages st)
    (inputMessage st) (isThinking st) (collectionInfo st)
    (<[next_rid st := KHealth]> (inflight st)) (S (next_rid st))
    (trace st ++ [Fetch (next_rid st) GetHealth]).
Proof. reflexivity. Qed.

Lemma setInputMessage_run value st :
  exec (setInputMessage value) st =
  mkState (uploadedFiles st) (processingStatus st) (messages st)
    value (isThinking st) (collectionInfo st)
    (inflight st) (next_rid st) (trace st).
Proof. reflexivity. Qed.

Lemma handleSendMessage_run now ts st :
  exec (handleSendMessage now ts) st =
  if send_blocked st then st
  else
    mkState (uploadedFiles st) (processingStatus st)
      (messages st ++ [userMessage st now ts]) "" true (collectionInfo st)
      (<[next_rid st := KQuery (userMessage st now ts)]> (inflight st))
      (S (next_rid st))
      (trace st ++ [Fetch (next_rid st) (PostQuery (inputMessage st) 5)]).
Proof.
  unfold handleSendMessage, send_blocked. js_unfold.
  destruct (negb _ || _); [by destruct st | reflexivity].
Qed.

Lemma handleFileUpload_cases (sel : list (File.t * string)) (st : State) :
  exec (handleFileUpload sel) st =
  match sel with
  | [] => st
  | _ :: _ =>
      mkState (uploadedFiles st ++ (new_job <$> sel))
        (marked (new_job <$> sel) processing (processingStatus st))
        (messages st) (inputMessage st) (isThinking st) (collectionInfo st)
        (<[next_rid st := KUpload (new_job <$> sel)]> (inflight st))
        (S (next_rid st))
        (trace st ++ [Fetch (next_rid st) (PostUpload sel.*1)])
  end.
Proof.
  destruct sel as [|fr sel]; [by destruct st|].
  rewrite handleFileUpload_run; [|done]. by rewrite dispatch_run.
Qed.

(** Splits a step into the shapes its result can take; the result state is
    left as an explicit record. *)
Ltac step_inv Hstep :=
  match type of Hstep with
  | step ?st ?ev = Some ?st' =>
      let k := fresh "k" in
      let Hk := fresh "Hk" in
      destruct ev as [|?value|?now ?ts|?sel|?fileId|?rid ?o ?now ?ts];
      cbn [step] in Hstep;
      [ injection Hstep as <-; rewrite loadCollectionInfo_run
      | injection Hstep as <-; rewrite setInputMessage_run
      | injection Hstep as <-; rewrite handleSendMessage_run;
        destruct (send_blocked st) eqn:?
      | injection Hstep as <-; rewrite handleFileUpload_cases;
        match goal with
        | |- context [match ?sel with [] => _ | _ :: _ => _ end] =>
            destruct sel as [|? ?]
        end
      | injection Hstep as <-; rewrite removeFile_run
      | destruct (inflight st !! _) as [k|] eqn:Hk; [|discriminate Hstep];
        injection Hstep as <-; destruct k; cbn [resume];
        [ match goal with
          | |- context [loadCollectionInfo_resume ?o] =>
              destruct (count_of o) eqn:?;
              [ erewrite health_resume_read by eassumption
              | erewrite health_resume_caught by eassumption ]
          end
        | match goal with
          | |- context [handleFileUpload_resume _ ?o] =>
              let results := fresh "results" in
              destruct (json_body o) as [results|] eqn:?;
              [ destruct (get_prop results p_length) eqn:?;
                [ erewrite upload_resume_parsed by eassumption
                | erewrite upload_resume_no_length by eassumption ]
              | erewrite upload_resume_caught by eassumption ]
          end
        | match goal with
          | |- context [handleSendMessage_resume ?o _ _] =>
              destruct (answer_of o) as [[? ?]|] eqn:?;
              [ erewrite query_resume_answered by eassumption
              | erewrite query_resume_caught by eassumption ]
          end ] ]
  end.

Lemma run_invariant (P : State → Prop) :
  (∀ st ev st', P st → step st ev = Some st' → P st') →
  ∀ evs st st', P st → run st evs = Some st' → P st'.
Proof.
  intros Hstep evs. induction evs as [|ev rest IH]; intros st st' HP Hrun.
  - cbn in Hrun. by injection Hrun as <-.
  - cbn in Hrun. destruct (step st ev) as [st1|] eqn:Hs; [|done].
    eapply IH; [|exact Hrun]. eapply Hstep; eauto.
Qed.

(** ** The collection summary *)

Lemma counts_agree_step st ev st' :
  counts_agree st → step st ev = Some st' → counts_agree st'.
Proof.
  unfold counts_agree. intros Hinv Hstep.
  step_inv Hstep; cbn; done.
Qed.

(** C10. Both counts of the cached summary start at 0; in every state that
    the session can reach, the chunk count is equal to the document count;
    and a refresh that reads [collection.document_count] from its response
    writes that one value into both fields. *)
Theorem chunk_count_mirrors_document_count
    (ts : Z) (evs : list Event) (st : State) :
  run (initState ts) evs = Some st →
  collectionInfo (initState ts) = CollectionInfo.mk (JInt 0) (JInt 0)
  ∧ CollectionInfo.total_chunks (collectionInfo st)
    = CollectionInfo.document_count (collectionInfo st)
  ∧ (∀ rid o now ts' dc,
       inflight st !! rid = Some KHealth →
       count_of o = Some dc →
       ∃ st',
         step st (Settle rid o now ts') = Some st'
         ∧ collectionInfo st' = CollectionInfo.mk dc dc).
Proof.
  intros Hrun. split; [reflexivity|]. split.
  - apply (run_invariant counts_agree counts_agree_step evs (initState ts));
      [reflexivity | exact Hrun].
  - intros rid o now ts' dc Hk Hcount. eexists.
    split; [cbn [step]; by rewrite Hk|].
    cbn [resume]. by rewrite (health_resume_read _ _ _ _ Hcount).
Qed.

(** The scenario of the specification: the health check at start-up reports
    7 documents. *)
Lemma chunk_count_mirrors_document_count_witness :
  ∃ st,
    run (initState 0) [Mount] = Some st
    ∧ CollectionInfo.total_chunks (collectionInfo st)
      = CollectionInfo.document_count (collectionInfo st)
    ∧ ∃ st',
        step st (Settle 0 (Responded 200 (Some (health_response 7))) 1 2)
        = Some st'
        ∧ collectionInfo st' = CollectionInfo.mk (JInt 7) (JInt 7).
Proof.
  exists (exec loadCollectionInfo (initState 0)).
  split; [reflexivity|].
  destruct (chunk_count_mirrors_document_count 0 [Mount]
              (exec loadCollectionInfo (initState 0)) eq_refl)
    as (_ & Hagree & Hrefresh).
  split; [exact Hagree|].
  exact (Hrefresh 0%nat (Responded 200 (Some (health_response 7))) 1 2
           (JInt 7) eq_refl eq_refl).
Defined.

(** C10 as stated fails in its last clause: after the health check has
    reported 7 documents the cached chunk count is 7, and the number that
    the dashboard shows under "Total Chunks" is 846, which no response
    changes. *)
Lemma dashboard_chunk_count_is_independent :
  let refreshed :=
    exec (retire 0;;
          loadCollectionInfo_resume
            (Responded 200 (Some (health_response 7))))
      (exec loadCollectionInfo (initState 0)) in
  run (initState 0)
    [Mount; Settle 0 (Responded 200 (Some (health_response 7))) 1 2]
  = Some refreshed
  ∧ CollectionInfo.total_chunks (collectionInfo refreshed) = JInt 7
  ∧ CollectionInfo.document_count (collectionInfo refreshed) = JInt 7
  ∧ shown_total_chunks refreshed = JInt 846
  ∧ shown_total_chunks refreshed
    ≠ CollectionInfo.total_chunks (collectionInfo refreshed)
  ∧ shown_total_chunks refreshed = shown_total_chunks (initState 0).
Proof.
  intros refreshed. repeat split; try reflexivity.
  intros Heq. vm_compute in Heq. discriminate Heq.
Qed.

Lemma get_prop_None_iff (v : jsval) (p : PropName) :
  get_prop v p = None ↔ v = JUndefined ∨ v = JNull.
Proof.
  destruct v; cbn; split; try done; try (by auto);
    intros [H|H]; discriminate H.
Qed.

Lemma count_of_None_iff (o : Outcome) :
  count_of o = None ↔
  json_body o = None
  ∨ ∃ data, json_body o = Some data
            ∧ (data = JNull ∨ data = JUndefined
               ∨ get_prop data p_collection = Some JNull
               ∨ get_prop data p_collection = Some JUndefined).
Proof.
  unfold count_of. destruct (json_body o) as [data|]; cbn; [|by split; auto].
  destruct (get_prop data p_collection) as [c|] eqn:Hc; cbn.
  - rewrite get_prop_None_iff. split.
    + intros [->| ->]; right; exists data; auto.
    + intros [H|(d & [= <-] & [->|[->|[H|H]]])]; try discriminate;
        rewrite Hc in H; injection H as ->; auto.
  - apply get_prop_None_iff in Hc. split; [|done].
    intros _. right. exists data. destruct Hc as [-> | ->]; auto.
Qed.

(** C6, as the code has it.  A settled health request never reaches the
    user: the transcript and the jobs are unchanged and no alert is shown.
    When reading [collection.document_count] from the response throws, the
    cached summary is left as it was and the only effect is one
    [console.error]; that is the case exactly when [fetch] was rejected,
    the body is not JSON, the body is [null], or its [collection] is missing
    or [null].  In every other case both cached counts become what
    [collection.document_count] evaluates to, [undefined] included.  The
    status of the response is not looked at. *)
Theorem refresh_failure_keeps_cache
    (st : State) (rid : nat) (o : Outcome) (now ts : Z) :
  inflight st !! rid = Some KHealth →
  ∃ st',
    step st (Settle rid o now ts) = Some st'
    ∧ messages st' = messages st
    ∧ uploadedFiles st' = uploadedFiles st
    ∧ processingStatus st' = processingStatus st
    ∧ (count_of o = None →
       collectionInfo st' = collectionInfo st
       ∧ trace st' =
         trace st ++ [ConsoleError "Failed to load collection info:"])
    ∧ (∀ dc, count_of o = Some dc →
         collectionInfo st' = CollectionInfo.mk dc dc
         ∧ trace st' = trace st)
    ∧ (count_of o = None ↔
       json_body o = None
       ∨ ∃ data, json_body o = Some data
                 ∧ (data = JNull ∨ data = JUndefined
                    ∨ get_prop data p_collection = Some JNull
                    ∨ get_prop data p_collection = Some JUndefined)).
Proof.
  intros Hk. eexists. split; [cbn [step]; by rewrite Hk|].
  cbn [resume]. pose proof (count_of_None_iff o) as Hiff.
  destruct (count_of o) as [dc|] eqn:Hcount.
  - rewrite (health_resume_read _ _ _ _ Hcount). fields.
    split; [done|]. split; [done|]. split; [done|].
    split; [intros Hnone; discriminate Hnone|].
    split; [by intros dc' [= <-] | exact Hiff].
  - rewrite (health_resume_caught _ _ _ Hcount). fields.
    split; [done|]. split; [done|]. split; [done|].
    split; [done|].
    split; [intros dc' Hsome; discriminate Hsome | exact Hiff].
Qed.

Lemma refresh_failure_keeps_cache_witness :
  let started := exec loadCollectionInfo (initState 0) in
  (∃ st',
     step started (Settle 0 Rejected 1 2) = Some st'
     ∧ collectionInfo st' = CollectionInfo.mk (JInt 0) (JInt 0)
     ∧ messages st' = [greeting 0])
  ∧ (∃ st',
       step started
         (Settle 0
            (Responded 500 (Some (JObj [("detail", JStr "unavailable")])))
            1 2) = Some st'
       ∧ collectionInfo st' = CollectionInfo.mk (JInt 0) (JInt 0))
  ∧ (∃ st',
       step started
         (Settle 0 (Responded 200 (Some (JObj [("collection", JInt 5)]))) 1 2)
       = Some st'
       ∧ collectionInfo st' = CollectionInfo.mk JUndefined JUndefined).
Proof.
  intros started. split; [|split].
  - destruct (refresh_failure_keeps_cache started 0 Rejected 1 2 eq_refl)
      as (st' & Hstep & Hmsgs & _ & _ & Hkeeps & _).
    exists st'. split; [exact Hstep|].
    split; [exact (proj1 (Hkeeps eq_refl)) | exact Hmsgs].
  - destruct (refresh_failure_keeps_cache started 0
                (Responded 500 (Some (JObj [("detail", JStr "unavailable")])))
                1 2 eq_refl) as (st' & Hstep & _ & _ & _ & Hkeeps & _).
    exists st'. split; [exact Hstep | exact (proj1 (Hkeeps eq_refl))].
  - destruct (refresh_failure_keeps_cache started 0
                (Responded 200 (Some (JObj [("collection", JInt 5)])))
                1 2 eq_refl) as (st' & Hstep & _ & _ & _ & _ & Hwrites & _).
    exists st'. split; [exact Hstep|].
    exact (proj1 (Hwrites JUndefined eq_refl)).
Defined.

(** C6 as stated fails: a response with status 503 that carries a
    collection count overwrites the cached summary. *)
Lemma refresh_status_503_overwrites_cache :
  let started := exec loadCollectionInfo (initState 0) in
  let o :=
    Responded 503
      (Some (JObj [("status", JStr "degraded");
                   ("collection", JObj [("document_count", JInt 7)])])) in
  request_failed o = true
  ∧ inflight started !! 0%nat = Some KHealth
  ∧ ∃ st',
      step started (Settle 0 o 1 2) = Some st'
      ∧ collectionInfo st' = CollectionInfo.mk (JInt 7) (JInt 7)
      ∧ collectionInfo st' ≠ collectionInfo started.
Proof.
  intros started o. split; [reflexivity|]. split; [reflexivity|].
  eexists. split; [reflexivity|]. split; [reflexivity|].
  cbn. intros Heq. discriminate Heq.
Qed.

(** ** At most one query in flight *)

Lemma one_query_init ts : one_query (initState ts).
Proof. split; intros *; cbn; by rewrite lookup_empty. Qed.

Lemma send_blocked_false st :
  send_blocked st = false → isThinking st = false.
Proof. unfold send_blocked. intros H. by apply orb_false_elim in H as [_ ?]. Qed.

Lemma one_query_step st ev st' :
  one_query st → step st ev = Some st' → one_query st'.
Proof.
  intros [Hlast Huniq] Hstep.
  assert (isThinking st = false → ∀ rid u, inflight st !! rid ≠ Some (KQuery u))
    as Hidle.
  { intros Hf rid u Hk. apply Hlast in Hk as [Ht _]. congruence. }
  step_inv Hstep; try (split; assumption); unfold one_query; fields.
  - (* Mount *)
    split; intros *; rewrite !lookup_insert_Some; naive_solver.
  - (* a query is sent *)
    apply send_blocked_false in Heqb. specialize (Hidle Heqb).
    split; intros *; rewrite !lookup_insert_Some; [|naive_solver].
    intros [[_ [= <-]]|[_ Hk]]; [|by apply Hidle in Hk].
    split; [done|]. by exists (messages st).
  - (* files are selected *)
    split; intros *; rewrite !lookup_insert_Some; naive_solver.
  - split; intros *; rewrite !lookup_delete_Some; naive_solver.
  - split; intros *; rewrite !lookup_delete_Some; naive_solver.
  - split; intros *; rewrite !lookup_insert_Some, !lookup_delete_Some;
      naive_solver.
  - split; intros *; rewrite !lookup_insert_Some, !lookup_delete_Some;
      naive_solver.
  - split; intros *; rewrite !lookup_delete_Some; naive_solver.
  - (* the query is answered *)
    split; intros *; rewrite !lookup_delete_Some; [|naive_solver].
    intros [Hne Hk']. destruct Hne. eapply Huniq; eauto.
  - split; intros *; rewrite !lookup_delete_Some; [|naive_solver].
    intros [Hne Hk']. destruct Hne. eapply Huniq; eauto.
Qed.

Lemma messages_step st ev st' :
  step st ev = Some st' → ∃ suffix, messages st' = messages st ++ suffix.
Proof.
  intros Hstep.
  step_inv Hstep; fields; try (by exists []; rewrite app_nil_r); by eexists.
Qed.

Lemma messages_run evs st st' :
  run st evs = Some st' → ∃ suffix, messages st' = messages st ++ suffix.
Proof.
  revert st. induction evs as [|ev rest IH]; intros st Hrun; cbn in Hrun.
  - injection Hrun as <-. exists []. by rewrite app_nil_r.
  - destruct (step st ev) as [st1|] eqn:Hs; [|done].
    apply messages_step in Hs as [s1 Hs1]. apply IH in Hrun as [s2 Hs2].
    exists (s1 ++ s2). by rewrite Hs2, Hs1, app_assoc.
Qed.

Lemma reply_role o now ts : Message.role (reply o now ts) = assistant.
Proof. unfold reply. by destruct (answer_of o) as [[? ?]|]. Qed.

Lemma settle_query st rid u o now ts :
  inflight st !! rid = Some (KQuery u) →
  ∃ st',
    step st (Settle rid o now ts) = Some st'
    ∧ messages st' = messages st ++ [reply o now ts]
    ∧ isThinking st' = false
    ∧ inflight st' = delete rid (inflight st).
Proof.
  intros Hk. eexists. split; [cbn [step]; by rewrite Hk|].
  cbn [resume]. unfold reply.
  destruct (answer_of o) as [[answer srcs]|] eqn:Hread.
  - by rewrite (query_resume_answered _ _ _ _ _ _ _ Hread).
  - by rewrite (query_resume_caught _ _ _ _ _ Hread).
Qed.

(** C7. The transcript starts as the one fixed greeting of the assistant,
    without citations.  Every step of the session, from any state, leaves
    the message sequence as it is or extends it at the end, so the
    transcript of a reachable state still begins with the greeting.  And
    when a query settles in a reachable state, whatever the outcome, its
    user message is the last of the transcript and exactly one assistant
    message is put right after it; the flag goes down and no other query is
    waiting. *)
Theorem transcript_append_only (ts : Z) (evs : list Event) (st : State) :
  run (initState ts) evs = Some st →
  (messages (initState ts) = [greeting ts]
   ∧ Message.role (greeting ts) = assistant
   ∧ Message.sources (greeting ts) = None)
  ∧ (∀ s ev s', step s ev = Some s' →
       ∃ suffix, messages s' = messages s ++ suffix)
  ∧ (∃ rest, messages st = greeting ts :: rest)
  ∧ (∀ rid u o now ts',
       inflight st !! rid = Some (KQuery u) →
       ∃ st' prefix a,
         step st (Settle rid o now ts') = Some st'
         ∧ messages st = prefix ++ [u]
         ∧ Message.role u = user
         ∧ messages st' = prefix ++ [u; a]
         ∧ Message.role a = assistant
         ∧ isThinking st' = false
         ∧ (∀ r u', inflight st' !! r ≠ Some (KQuery u'))).
Proof.
  intros Hrun. split; [done|]. split; [exact messages_step|]. split.
  { apply messages_run in Hrun as [suffix Hs]. by exists suffix. }
  pose proof (run_invariant one_query one_query_step evs (initState ts) st
                (one_query_init ts) Hrun) as [Hlast Huniq].
  intros rid u o now ts' Hk.
  destruct (Hlast rid u Hk) as (_ & prefix & Hmsgs & Hrole).
  destruct (settle_query st rid u o now ts' Hk)
    as (st' & Hstep & Happ & Hflag & Hwait).
  exists st', prefix, (reply o now ts'). split; [exact Hstep|].
  split; [exact Hmsgs|]. split; [exact Hrole|].
  split; [by rewrite Happ, Hmsgs, <- app_assoc|].
  split; [apply reply_role|]. split; [exact Hflag|].
  intros r u' Hk'. rewrite Hwait in Hk'.
  apply lookup_delete_Some in Hk' as [Hne Hk'].
  apply Hne. eapply Huniq; eauto.
Qed.

Lemma transcript_append_only_witness :
  ∃ st,
    run (initState 1000)
      [Mount; ChangeInput "hello"; SendMessage 2000 2001] = Some st
    ∧ (∃ rest, messages st = greeting 1000 :: rest)
    ∧ ∃ st' prefix a,
        step st (Settle 1 (Responded 502 None) 3000 3002) = Some st'
        ∧ messages st' =
          prefix ++ [Message.mk "2000" user (JStr "hello") None 2001; a]
        ∧ Message.role a = assistant
        ∧ isThinking st' = false.
Proof.
  eexists. split; [reflexivity|].
  destruct (transcript_append_only 1000
              [Mount; ChangeInput "hello"; SendMessage 2000 2001]
              _ eq_refl)
    as (_ & _ & Hgreets & Hsettle).
  split; [exact Hgreets|].
  destruct (Hsettle 1%nat (Message.mk "2000" user (JStr "hello") None 2001)
              (Responded 502 None) 3000 3002 eq_refl)
    as (st' & prefix & a & Hstep & _ & _ & Hmsgs & Hrole & Hflag & _).
  exists st', prefix, a. repeat split; assumption.
Defined.

(** ** Batches in flight *)

Lemma rids_fresh_step st ev st' :
  rids_fresh st → step st ev = Some st' → rids_fresh st'.
Proof.
  unfold rids_fresh. intros Hinv Hstep.
  step_inv Hstep; try assumption; fields; intros r k';
    rewrite ?lookup_insert_Some, ?lookup_delete_Some;
    intros Hlook;
    repeat match goal with
      | H : _ ∨ _ |- _ => destruct H
      | H : _ ∧ _ |- _ => destruct H
      end;
    subst; try lia;
    match goal with
    | H : inflight st !! r = Some _ |- _ => apply Hinv in H; lia
    end.
Qed.

Lemma rids_fresh_run ts evs st :
  run (initState ts) evs = Some st → rids_fresh st.
Proof.
  apply (run_invariant rids_fresh rids_fresh_step).
  intros rid k. cbn. by rewrite lookup_empty.
Qed.

(** C9, as the code has it.  In every state that the session reaches,
    settling one waiting batch, whatever the outcome, leaves the tracked
    sequence as it is and writes one status, [completed] or [error], under
    the ids of the jobs of that batch and under no other id: the status of
    every id outside the batch is as before.  Every other waiting batch
    keeps waiting, and each of its jobs whose id is not also an id of the
    settled batch has the status it had.  The ids come from [Math.random]
    and are not checked, so only the ids, not the batches, are kept apart. *)
Theorem settle_touches_own_ids_only
    (ts : Z) (evs : list Event) (st : State) (rid : nat)
    (newFiles : list Job.t) (o : Outcome) (now ts' : Z) :
  run (initState ts) evs = Some st →
  inflight st !! rid = Some (KUpload newFiles) →
  ∃ st' s,
    step st (Settle rid o now ts') = Some st'
    ∧ (s = completed ∨ s = error)
    ∧ uploadedFiles st' = uploadedFiles st
    ∧ (∀ i, i ∈ job_ids newFiles → processingStatus st' !! i = Some s)
    ∧ (∀ i, i ∉ job_ids newFiles →
         processingStatus st' !! i = processingStatus st !! i
         ∧ shown_status st' i = shown_status st i)
    ∧ (∀ rid' other,
         rid' ≠ rid →
         inflight st !! rid' = Some (KUpload other) →
         inflight st' !! rid' = Some (KUpload other)
         ∧ ∀ f, f ∈ other → Job.id f ∉ job_ids newFiles →
             processingStatus st' !! Job.id f = processingStatus st !! Job.id f
             ∧ shown_status st' (Job.id f) = shown_status st (Job.id f)).
Proof.
  intros Hrun Hk.
  pose proof (rids_fresh_run ts evs st Hrun) as Hrids.
  assert (∃ st' s,
            step st (Settle rid o now ts') = Some st'
            ∧ (s = completed ∨ s = error)
            ∧ uploadedFiles st' = uploadedFiles st
            ∧ (∀ i, processingStatus st' !! i =
                    if decide (i ∈ job_ids newFiles) then Some s
                    else processingStatus st !! i)
            ∧ (inflight st' = delete rid (inflight st)
               ∨ inflight st' =
                 <[next_rid st := KHealth]> (delete rid (inflight st))))
    as (st' & s & Hstep & Hs & Hjobs & Hmap & Hwait).
  { cbn [step]. rewrite Hk. cbn [resume].
    destruct (json_body o) as [results|] eqn:Hbody.
    - destruct (get_prop results p_length) as [n|] eqn:Hn.
      + eexists _, completed. split; [reflexivity|].
        rewrite (upload_resume_parsed _ _ _ _ _ _ Hbody Hn). fields.
        split; [by left|]. split; [done|]. split; [|by right].
        intros i. apply marked_lookup.
      + eexists _, error. split; [reflexivity|].
        rewrite (upload_resume_no_length _ _ _ _ _ Hbody Hn). fields.
        split; [by right|]. split; [done|]. split; [|by right].
        intros i. rewrite !marked_lookup. by case_decide.
    - eexists _, error. split; [reflexivity|].
      rewrite (upload_resume_caught _ _ _ _ Hbody). fields.
      split; [by right|]. split; [done|]. split; [|by left].
      intros i. apply marked_lookup. }
  exists st', s. split; [exact Hstep|]. split; [exact Hs|].
  split; [exact Hjobs|].
  assert (∀ i, i ∉ job_ids newFiles →
            processingStatus st' !! i = processingStatus st !! i
            ∧ shown_status st' i = shown_status st i) as Hframe.
  { intros i Hi. unfold shown_status. rewrite Hmap.
    by rewrite decide_False. }
  split; [|split; [exact Hframe|]].
  - intros i Hi. rewrite Hmap. by rewrite decide_True.
  - intros rid' other Hne Hother. split.
    + destruct Hwait as [-> | ->].
      * by rewrite lookup_delete_ne.
      * apply Hrids in Hother as Hlt.
        rewrite lookup_insert_ne by lia. by rewrite lookup_delete_ne.
    + intros f _ Hf. by apply Hframe.
Qed.

Lemma settle_touches_own_ids_only_witness :
  ∃ st,
    run (initState 0) [SelectFiles two_files; SelectFiles two_more_files]
    = Some st
    ∧ inflight st !! 1%nat = Some (KUpload (new_job <$> two_more_files))
    ∧ ∃ st',
        step st (Settle 0 Rejected 1 2) = Some st'
        ∧ uploadedFiles st' = uploadedFiles st
        ∧ inflight st' !! 1%nat = Some (KUpload (new_job <$> two_more_files))
        ∧ shown_status st' "m4n8b2v6c" = processing
        ∧ shown_status st' "z1y2x3w4u" = processing.
Proof.
  eexists. split; [reflexivity|]. split; [reflexivity|].
  destruct (settle_touches_own_ids_only 0
              [SelectFiles two_files; SelectFiles two_more_files] _ 0
              (new_job <$> two_files) Rejected 1 2 eq_refl eq_refl)
    as (st' & s & Hstep & _ & Hjobs & _ & Hframe & Hothers).
  exists st'. split; [exact Hstep|]. split; [exact Hjobs|].
  destruct (Hothers 1%nat (new_job <$> two_more_files)
              ltac:(discriminate) eq_refl) as [Hwaits _].
  split; [exact Hwaits|].
  assert (Forall (λ i, i ∉ job_ids (new_job <$> two_files))
            ["m4n8b2v6c"; "z1y2x3w4u"]) as Hout.
  { by apply (bool_decide_unpack _). }
  split.
  - destruct (Hframe "m4n8b2v6c") as [_ Hshown]; [by inversion Hout|].
    exact Hshown.
  - destruct (Hframe "z1y2x3w4u") as [_ Hshown];
      [inversion Hout as [|? ? _ Hrest]; by inversion Hrest|].
    exact Hshown.
Defined.

(** C9 as stated fails: two batches whose jobs drew the same id wait; the
    first is rejected, and the job of the second, which still waits, goes
    from [processing] to [error]. *)
Lemma settle_changes_other_batch_with_same_id :
  let both :=
    exec (handleFileUpload [(File.mk "b.DOCX" 20, "k3x9q0z1a")])
      (exec (handleFileUpload [(File.mk "a.pdf" 10, "k3x9q0z1a")])
         (initState 0)) in
  let other := new_job (File.mk "b.DOCX" 20, "k3x9q0z1a") in
  run (initState 0)
    [SelectFiles [(File.mk "a.pdf" 10, "k3x9q0z1a")];
     SelectFiles [(File.mk "b.DOCX" 20, "k3x9q0z1a")]] = Some both
  ∧ inflight both !! 0%nat
    = Some (KUpload [new_job (File.mk "a.pdf" 10, "k3x9q0z1a")])
  ∧ inflight both !! 1%nat = Some (KUpload [other])
  ∧ shown_status both (Job.id other) = processing
  ∧ ∃ st',
      step both (Settle 0 Rejected 1 2) = Some st'
      ∧ inflight st' !! 1%nat = Some (KUpload [other])
      ∧ shown_status st' (Job.id other) = error
      ∧ shown_status st' (Job.id other) ≠ shown_status both (Job.id other).
Proof.
  intros both other. split; [reflexivity|]. split; [reflexivity|].
  split; [reflexivity|]. split; [reflexivity|].
  eexists. split; [reflexivity|]. split; [reflexivity|].
  split; [reflexivity|]. intros Heq. vm_compute in Heq. discriminate Heq.
Qed.

(** ** More about the transcript *)

Lemma all_ws_trimStart s : all_ws s = true → trimStart s = "".
Proof.
  induction s as [|c rest IH]; [done|]. cbn.
  intros [Hc Hrest]%andb_true_iff. rewrite Hc. by apply IH.
Qed.

Lemma all_ws_trim s : all_ws s = true → trim s = "".
Proof.
  intros Hs. unfold trim, trimEnd. rewrite (all_ws_trimStart s Hs).
  reflexivity.
Qed.

Lemma send_blocked_false_text st :
  send_blocked st = false → all_ws (inputMessage st) = false.
Proof.
  unfold send_blocked. intros [Htext _]%orb_false_elim.
  destruct (all_ws (inputMessage st)) eqn:Hws; [|done].
  by rewrite (all_ws_trim _ Hws) in Htext.
Qed.

Lemma alternating_snoc n :
  alternating n ++ [user; assistant] = alternating (S n).
Proof.
  unfold alternating. induction n as [|n IH]; [done|].
  cbn [replicate concat] in *. by rewrite <- app_assoc, IH.
Qed.

Lemma paired_step st ev st' :
  one_query st → paired st → step st ev = Some st' → paired st'.
Proof.
  intros [Hlast _] [n Hroles] Hstep.
  step_inv Hstep; unfold paired; fields; try (by exists n).
  - (* a query is sent *)
    apply send_blocked_false in Heqb. rewrite Heqb, app_nil_r in Hroles.
    exists n. by rewrite fmap_app, Hroles.
  - (* the query is answered *)
    destruct (Hlast _ _ Hk) as [Hflag _]. rewrite Hflag in Hroles.
    exists (S n). rewrite fmap_app, Hroles, app_nil_r, <- alternating_snoc.
    cbn -[alternating]. by rewrite <- app_assoc.
  - destruct (Hlast _ _ Hk) as [Hflag _]. rewrite Hflag in Hroles.
    exists (S n). rewrite fmap_app, Hroles, app_nil_r, <- alternating_snoc.
    cbn -[alternating]. by rewrite <- app_assoc.
Qed.

Lemma run_invariant2 (P Q : State → Prop) :
  (∀ st ev st', P st → step st ev = Some st' → P st') →
  (∀ st ev st', P st → Q st → step st ev = Some st' → Q st') →
  ∀ evs st st', P st → Q st → run st evs = Some st' → Q st'.
Proof.
  intros HP HQ evs st st' HPst HQst Hrun.
  apply (run_invariant (λ s, P s ∧ Q s)) with (evs := evs) (st := st);
    [|done|done].
  intros s ev s' [HPs HQs] Hs. split; [by eapply HP | by eapply HQ].
Qed.

(** X1. In every state that the session reaches, the roles of the
    transcript are: the greeting of the assistant, then user and assistant
    in turn, and one more user message exactly while the flag is up. *)
Theorem transcript_alternates (ts : Z) (evs : list Event) (st : State) :
  run (initState ts) evs = Some st →
  ∃ n, Message.role <$> messages st
       = assistant :: alternating n
         ++ (if isThinking st then [user] else []).
Proof.
  intros Hrun.
  apply (run_invariant2 one_query paired one_query_step paired_step evs
           (initState ts) st); [apply one_query_init | | exact Hrun].
  by exists 0%nat.
Qed.

Lemma transcript_alternates_witness :
  ∃ st n,
    run (initState 0)
      [ChangeInput "one"; SendMessage 1 2; Settle 0 Rejected 3 4;
       ChangeInput "two"; SendMessage 5 6] = Some st
    ∧ isThinking st = true
    ∧ Message.role <$> messages st = assistant :: alternating n ++ [user].
Proof.
  eexists.
  destruct (transcript_alternates 0
              [ChangeInput "one"; SendMessage 1 2; Settle 0 Rejected 3 4;
               ChangeInput "two"; SendMessage 5 6] _ eq_refl) as [n Hn].
  exists n. split; [reflexivity|]. split; [reflexivity|]. exact Hn.
Defined.

Lemma flag_step st ev st' :
  rids_fresh st ∧ one_query st → flag_tracks_query st →
  step st ev = Some st' → flag_tracks_query st'.
Proof.
  intros [Hrids Hone] Hflag Hstep.
  pose proof (one_query_step _ _ _ Hone Hstep) as [Hlast' _].
  split.
  - destruct Hone as [_ Huniq]. destruct Hflag as [Hwaits _].
    clear Hlast'. revert Hwaits.
    step_inv Hstep; fields; try done; intros Hwaits Hup.
    + destruct (Hwaits Hup) as (r & u & Hr). exists r, u.
      apply Hrids in Hr as Hlt. by rewrite lookup_insert_ne by lia.
    + by eexists _, _; rewrite lookup_insert_eq.
    + destruct (Hwaits Hup) as (r & u & Hr). exists r, u.
      apply Hrids in Hr as Hlt. by rewrite lookup_insert_ne by lia.
    + destruct (Hwaits Hup) as (r & u & Hr). exists r, u.
      rewrite lookup_delete_ne; [done | congruence].
    + destruct (Hwaits Hup) as (r & u & Hr). exists r, u.
      rewrite lookup_delete_ne; [done | congruence].
    + destruct (Hwaits Hup) as (r & u & Hr). exists r, u.
      apply Hrids in Hr as Hlt. rewrite lookup_insert_ne by lia.
      rewrite lookup_delete_ne; [done | congruence].
    + destruct (Hwaits Hup) as (r & u & Hr). exists r, u.
      apply Hrids in Hr as Hlt. rewrite lookup_insert_ne by lia.
      rewrite lookup_delete_ne; [done | congruence].
    + destruct (Hwaits Hup) as (r & u & Hr). exists r, u.
      rewrite lookup_delete_ne; [done | congruence].
  - intros (r & u & Hr). by destruct (Hlast' r u Hr).
Qed.

Lemma run_basic ts evs st :
  run (initState ts) evs = Some st → rids_fresh st ∧ one_query st.
Proof.
  apply (run_invariant (λ s, rids_fresh s ∧ one_query s)).
  - intros s ev s' [Hr Ho] Hs.
    split; [by eapply rids_fresh_step | by eapply one_query_step].
  - split; [|apply one_query_init].
    intros rid k. cbn. by rewrite lookup_empty.
Qed.

(** X2. In every state that the session reaches, the flag is up exactly
    while a query waits for its response, and no two queries wait at once. *)
Theorem flag_up_iff_query_waits (ts : Z) (evs : list Event) (st : State) :
  run (initState ts) evs = Some st →
  (isThinking st = true ↔ ∃ rid u, inflight st !! rid = Some (KQuery u))
  ∧ (∀ r1 r2 u1 u2,
       inflight st !! r1 = Some (KQuery u1) →
       inflight st !! r2 = Some (KQuery u2) → r1 = r2 ∧ u1 = u2).
Proof.
  intros Hrun. split.
  - apply (run_invariant2 (λ s, rids_fresh s ∧ one_query s)
             flag_tracks_query) with (evs := evs) (st := initState ts);
      [ | exact flag_step | | | exact Hrun ].
    + intros s ev s' [Hr Ho] Hs.
      split; [by eapply rids_fresh_step | by eapply one_query_step].
    + split; [|apply one_query_init].
      intros rid k. cbn. by rewrite lookup_empty.
    + split; [done|]. intros (r & u & Hr). cbn in Hr.
      by rewrite lookup_empty in Hr.
  - destruct (run_basic ts evs st Hrun) as [_ [_ Huniq]].
    intros r1 r2 u1 u2 H1 H2.
    pose proof (Huniq r1 r2 u1 u2 H1 H2) as ->. split; [done|]. congruence.
Qed.

Lemma flag_up_iff_query_waits_witness :
  ∃ st,
    run (initState 0) [Mount; ChangeInput "hi"; SendMessage 1 2] = Some st
    ∧ (isThinking st = true ↔ ∃ rid u, inflight st !! rid = Some (KQuery u)).
Proof.
  eexists. split; [reflexivity|].
  exact (proj1 (flag_up_iff_query_waits 0
                  [Mount; ChangeInput "hi"; SendMessage 1 2] _ eq_refl)).
Defined.

Lemma run_snoc st evs ev :
  run st (evs ++ [ev]) =
  match run st evs with
  | Some st1 => step st1 ev
  | None => None
  end.
Proof.
  revert st. induction evs as [|e rest IH]; intros st; cbn [app run].
  - by destruct (step st ev).
  - destruct (step st e); [apply IH | done].
Qed.

Lemma messages_cases st ev st' :
  step st ev = Some st' →
  messages st' = messages st
  ∨ (∃ now ts, ev = SendMessage now ts ∧ send_blocked st = false
               ∧ messages st' = messages st ++ [userMessage st now ts])
  ∨ (∃ a, messages st' = messages st ++ [a] ∧ Message.role a = assistant).
Proof.
  intros Hstep.
  step_inv Hstep; fields; try (by left).
  - right. left. by eexists _, _.
  - right. right. by eexists.
  - right. right. by eexists.
Qed.

(** X3. In every state that the session reaches, each user message of the
    transcript was put there by one submission: at that point of the run no
    response was awaited, the input had a character that is not white
    space, and the content of the message is that input as it was, not
    trimmed; the message has no sources. *)
Theorem user_messages_are_typed_text
    (ts : Z) (evs : list Event) (st : State) (m : Message.t) :
  run (initState ts) evs = Some st →
  m ∈ messages st → Message.role m = user →
  ∃ before after st1 now ts',
    evs = before ++ SendMessage now ts' :: after
    ∧ run (initState ts) before = Some st1
    ∧ isThinking st1 = false
    ∧ all_ws (inputMessage st1) = false
    ∧ m = Message.mk (toString now) user (JStr (inputMessage st1)) None ts'.
Proof.
  revert st. induction evs as [|ev front IH] using rev_ind;
    intros st Hrun Hm Hrole.
  - cbn in Hrun. injection Hrun as <-.
    apply list_elem_of_singleton in Hm. by subst m.
  - rewrite run_snoc in Hrun.
    destruct (run (initState ts) front) as [st0|] eqn:Hfront; [|done].
    assert (m ∈ messages st0 →
            ∃ before after st1 now ts',
              front ++ [ev] = before ++ SendMessage now ts' :: after
              ∧ run (initState ts) before = Some st1
              ∧ isThinking st1 = false
              ∧ all_ws (inputMessage st1) = false
              ∧ m = Message.mk (toString now) user
                      (JStr (inputMessage st1)) None ts') as Hold.
    { intros Hm0.
      destruct (IH st0 eq_refl Hm0 Hrole)
        as (before & after & st1 & now & ts' & -> & Hrest).
      exists before, (after ++ [ev]), st1, now, ts'.
      split; [by rewrite <- app_assoc | exact Hrest]. }
    destruct (messages_cases _ _ _ Hrun)
      as [Hsame|[(now & ts' & -> & Hgo & Hnew)|(a & Hnew & Ha)]].
    + apply Hold. by rewrite <- Hsame.
    + rewrite Hnew in Hm.
      apply elem_of_app in Hm as [Hm|Hm%list_elem_of_singleton];
        [by apply Hold|].
      exists front, [], st0, now, ts'. split; [done|]. split; [done|].
      split; [by apply send_blocked_false|].
      split; [by apply send_blocked_false_text | exact Hm].
    + rewrite Hnew in Hm.
      apply elem_of_app in Hm as [Hm|Hm%list_elem_of_singleton];
        [by apply Hold|].
      subst m. congruence.
Qed.

Lemma user_messages_are_typed_text_witness :
  ∃ st before after st1 now ts',
    run (initState 0) [ChangeInput "  hi "; SendMessage 1 2;
                       Settle 0 Rejected 3 4] = Some st
    ∧ Message.mk "1" user (JStr "  hi ") None 2 ∈ messages st
    ∧ [ChangeInput "  hi "; SendMessage 1 2; Settle 0 Rejected 3 4]
      = before ++ SendMessage now ts' :: after
    ∧ run (initState 0) before = Some st1
    ∧ Message.mk "1" user (JStr "  hi ") None 2
      = Message.mk (toString now) user (JStr (inputMessage st1)) None ts'.
Proof.
  eexists.
  assert (Message.mk "1" user (JStr "  hi ") None 2
          ∈ messages
              (exec (retire 0;; handleSendMessage_resume Rejected 3 4)
                 (exec (handleSendMessage 1 2)
                    (exec (setInputMessage "  hi ") (initState 0)))))
    as Hin by (right; left).
  destruct (user_messages_are_typed_text 0
              [ChangeInput "  hi "; SendMessage 1 2; Settle 0 Rejected 3 4]
              _ (Message.mk "1" user (JStr "  hi ") None 2)
              eq_refl Hin eq_refl)
    as (before & after & st1 & now & ts' & Hevs & Hrun & _ & _ & Hm).
  exists before, after, st1, now, ts'.
  split; [reflexivity|]. split; [exact Hin|]. split; [exact Hevs|].
  split; [exact Hrun | exact Hm].
Defined.

(** ** Requests and the jobs they carry *)

Lemma new_job_names (sel : list (File.t * string)) :
  File.name <$> sel.*1 = Job.name <$> (new_job <$> sel)
  ∧ File.size <$> sel.*1 = Job.size <$> (new_job <$> sel).
Proof. by rewrite <- !list_fmap_compose. Qed.

Lemma requests_step st ev st' :
  requests_match st → step st ev = Some st' → requests_match st'.
Proof.
  intros [Hq Hu] Hstep.
  assert (∀ (extra : list Effect) rid u,
            inflight st !! rid = Some (KQuery u) →
            ∃ text, Message.content u = JStr text
                    ∧ Fetch rid (PostQuery text 5) ∈ trace st ++ extra)
    as Hq'.
  { intros extra rid u Hk. destruct (Hq rid u Hk) as (text & Hc & Hin).
    exists text. split; [done|]. apply elem_of_app. by left. }
  assert (∀ (extra : list Effect) rid b,
            inflight st !! rid = Some (KUpload b) →
            ∃ files, Fetch rid (PostUpload files) ∈ trace st ++ extra
                     ∧ File.name <$> files = Job.name <$> b
                     ∧ File.size <$> files = Job.size <$> b)
    as Hu'.
  { intros extra rid b Hk. destruct (Hu rid b Hk) as (files & Hin & Hn).
    exists files. split; [|done]. apply elem_of_app. by left. }
  step_inv Hstep; try (split; assumption); unfold requests_match; fields;
    rewrite <- ?app_assoc;
    (split; intros r x;
     rewrite ?lookup_insert_Some, ?lookup_delete_Some;
     intros Hlook;
     repeat match goal with
       | H : _ ∨ _ |- _ => destruct H
       | H : _ ∧ _ |- _ => destruct H
       end;
     try discriminate; try (by apply Hq'); try (by apply Hu');
     try (by apply Hq); try (by apply Hu)).
  - (* the query that is sent *)
    match goal with H : KQuery _ = KQuery _ |- _ => injection H as <- end.
    subst r. exists (inputMessage st). split; [done|].
    apply elem_of_app. right. by left.
  - (* the batch that is sent *)
    match goal with H : KUpload _ = KUpload _ |- _ => injection H as <- end.
    subst r. exists (p :: sel).*1. split.
    + apply elem_of_app. right. by left.
    + apply (new_job_names (p :: sel)).
Qed.

Lemma requests_run ts evs st :
  run (initState ts) evs = Some st → requests_match st.
Proof.
  apply (run_invariant requests_match requests_step).
  split; intros *; cbn; by rewrite lookup_empty.
Qed.

(** X4. In every state that the session reaches, a waiting query was sent
    as a request whose [query] is the text of its user message, unchanged,
    and whose [n_results] is 5. *)
Theorem query_request_carries_question
    (ts : Z) (evs : list Event) (st : State) (rid : nat) (u : Message.t) :
  run (initState ts) evs = Some st →
  inflight st !! rid = Some (KQuery u) →
  ∃ text, Message.content u = JStr text
          ∧ Fetch rid (PostQuery text 5) ∈ trace st.
Proof.
  intros Hrun Hk. destruct (requests_run ts evs st Hrun) as [Hq _].
  by apply Hq.
Qed.

Lemma query_request_carries_question_witness :
  ∃ st text,
    run (initState 0) [Mount; ChangeInput " why? "; SendMessage 1 2] = Some st
    ∧ JStr " why? " = JStr text
    ∧ Fetch 1 (PostQuery text 5) ∈ trace st.
Proof.
  eexists.
  destruct (query_request_carries_question 0
              [Mount; ChangeInput " why? "; SendMessage 1 2] _ 1
              (Message.mk "1" user (JStr " why? ") None 2)
              eq_refl eq_refl) as (text & Hcontent & Hin).
  exists text. split; [reflexivity|]. by split.
Defined.

(** X5. In every state that the session reaches, a waiting batch was sent
    as one upload request whose files are those of the batch's jobs: the
    same names and sizes, in the same order. *)
Theorem upload_request_carries_batch
    (ts : Z) (evs : list Event) (st : State) (rid : nat) (b : list Job.t) :
  run (initState ts) evs = Some st →
  inflight st !! rid = Some (KUpload b) →
  ∃ files, Fetch rid (PostUpload files) ∈ trace st
           ∧ File.name <$> files = Job.name <$> b
           ∧ File.size <$> files = Job.size <$> b.
Proof.
  intros Hrun Hk. destruct (requests_run ts evs st Hrun) as [_ Hu].
  by apply Hu.
Qed.

Lemma upload_request_carries_batch_witness :
  ∃ st files,
    run (initState 0) [Mount; SelectFiles two_files] = Some st
    ∧ Fetch 1 (PostUpload files) ∈ trace st
    ∧ File.name <$> files = ["a.pdf"; "b.DOCX"].
Proof.
  eexists.
  destruct (upload_request_carries_batch 0 [Mount; SelectFiles two_files] _
              1 (new_job <$> two_files) eq_refl eq_refl)
    as (files & Hin & Hnames & _).
  exists files. split; [reflexivity|]. by split.
Defined.

(** ** Statuses of the tracked jobs *)

Lemma statuses_step st ev st' :
  statuses_set st → step st ev = Some st' → statuses_set st'.
Proof.
  intros [Hjobs Hvals] Hstep.
  assert (∀ b s m, s ≠ pending →
            (∀ i, m !! i ≠ Some pending) →
            ∀ i, marked b s m !! i ≠ Some pending) as Hmarked_vals.
  { intros b s m Hs Hm i. rewrite marked_lookup.
    case_decide; [congruence | apply Hm]. }
  assert (∀ b s m i, is_Some (m !! i) → is_Some (marked b s m !! i))
    as Hmarked_some.
  { intros b s m i Hi. rewrite marked_lookup. by case_decide. }
  step_inv Hstep; try (split; assumption); unfold statuses_set; fields.
  - (* files are selected *)
    split.
    + intros f [Hf|Hf]%elem_of_app.
      * destruct (Hjobs f Hf) as [Hst Hsome]. split; [done|].
        by apply Hmarked_some.
      * split; [by eapply (new_jobs_pending (p :: sel))|].
        rewrite marked_lookup, decide_True; [done|].
        by apply job_id_elem.
    + by apply Hmarked_vals.
  - (* a job is removed *)
    split.
    + intros f [Hne Hf]%list_elem_of_filter.
      destruct (Hjobs f Hf) as [Hst Hsome]. split; [done|].
      by rewrite lookup_delete_ne.
    + intros i [_ Hi]%lookup_delete_Some. by apply (Hvals i).
  - split.
    + intros f Hf. destruct (Hjobs f Hf) as [Hst Hsome].
      split; [done | by apply Hmarked_some].
    + by apply Hmarked_vals.
  - split.
    + intros f Hf. destruct (Hjobs f Hf) as [Hst Hsome].
      split; [done | by apply Hmarked_some, Hmarked_some].
    + apply Hmarked_vals; [done|]. by apply Hmarked_vals.
  - split.
    + intros f Hf. destruct (Hjobs f Hf) as [Hst Hsome].
      split; [done | by apply Hmarked_some].
    + by apply Hmarked_vals.
Qed.

Lemma statuses_run ts evs st :
  run (initState ts) evs = Some st → statuses_set st.
Proof.
  apply (run_invariant statuses_set statuses_step).
  split.
  - intros f Hf. by apply elem_of_nil in Hf.
  - intros i. cbn. by rewrite lookup_empty.
Qed.

(** X6. In every state that the session reaches, each tracked job still has
    the [status] field it was created with, [pending], which no handler
    updates; what its row shows comes from the status map and is one of
    [processing], [completed] and [error], never [pending]. *)
Theorem tracked_job_never_shows_pending
    (ts : Z) (evs : list Event) (st : State) (f : Job.t) :
  run (initState ts) evs = Some st →
  f ∈ uploadedFiles st →
  Job.status f = pending
  ∧ shown_status st (Job.id f) ≠ pending
  ∧ processingStatus st !! Job.id f = Some (shown_status st (Job.id f)).
Proof.
  intros Hrun Hf. destruct (statuses_run ts evs st Hrun) as [Hjobs Hvals].
  destruct (Hjobs f Hf) as [Hst [s Hs]]. split; [done|].
  unfold shown_status. rewrite Hs. cbn. split; [|done].
  intros ->. by apply (Hvals (Job.id f)).
Qed.

Lemma tracked_job_never_shows_pending_witness :
  ∃ st,
    run (initState 0) [SelectFiles two_files; Settle 0 Rejected 1 2] = Some st
    ∧ Job.status (new_job (File.mk "a.pdf" 10, "k3x9q0z1a")) = pending
    ∧ shown_status st "k3x9q0z1a" ≠ pending.
Proof.
  eexists. split; [reflexivity|].
  destruct (tracked_job_never_shows_pending 0
              [SelectFiles two_files; Settle 0 Rejected 1 2] _
              (new_job (File.mk "a.pdf" 10, "k3x9q0z1a")) eq_refl)
    as (Hfield & Hshown & _); [by left|].
  by split.
Defined.

(** ** Removing jobs *)

Lemma remove_filter_comm (i j : string) (jobs : list Job.t) :
  filter (λ f, Job.id f ≠ i) (filter (λ f, Job.id f ≠ j) jobs)
  = filter (λ f, Job.id f ≠ j) (filter (λ f, Job.id f ≠ i) jobs).
Proof.
  rewrite !list_filter_filter. apply list_filter_iff. intros f. tauto.
Qed.

Lemma remove_filter_idemp (i : string) (jobs : list Job.t) :
  filter (λ f, Job.id f ≠ i) (filter (λ f, Job.id f ≠ i) jobs)
  = filter (λ f, Job.id f ≠ i) jobs.
Proof.
  rewrite list_filter_filter. apply list_filter_iff. intros f. tauto.
Qed.

(** X7. Removing the same id twice is the same as removing it once, and
    two removals give the same state in either order. *)
Theorem removals_idempotent_and_commute (st : State) (i j : string) :
  run st [RemoveFile i; RemoveFile i] = run st [RemoveFile i]
  ∧ run st [RemoveFile i; RemoveFile j] = run st [RemoveFile j; RemoveFile i].
Proof.
  cbn [run step]. rewrite !removeFile_run. fields. split; f_equal.
  - f_equal; [apply remove_filter_idemp | apply delete_delete_eq].
  - f_equal; [apply remove_filter_comm | apply delete_delete].
Qed.

(** X8. When a job is removed while its batch waits, the batch that settles
    afterwards does not bring the job back into the tracked sequence, but it
    writes a status under the removed id again: [completed] or [error]. *)
Theorem removed_job_gets_status_again
    (st : State) (rid : nat) (b : list Job.t) (f : Job.t) (o : Outcome)
    (now ts : Z) :
  inflight st !! rid = Some (KUpload b) →
  f ∈ b →
  ∃ st' s,
    run st [RemoveFile (Job.id f); Settle rid o now ts] = Some st'
    ∧ (Job.id f ∉ job_ids (uploadedFiles st'))
    ∧ processingStatus st' !! Job.id f = Some s
    ∧ (s = completed ∨ s = error).
Proof.
  intros Hk Hf. cbn [run step]. rewrite removeFile_run. fields.
  rewrite Hk. cbn [resume].
  assert (Job.id f ∈ job_ids b) as Hid by by apply job_id_elem.
  destruct (json_body o) as [results|] eqn:Hbody.
  - destruct (get_prop results p_length) as [n|] eqn:Hn.
    + eexists _, completed. split; [reflexivity|].
      rewrite (upload_resume_parsed _ _ _ _ _ _ Hbody Hn). fields.
      split; [apply filter_drops_id|]. split; [|by left].
      by rewrite marked_lookup, decide_True.
    + eexists _, error. split; [reflexivity|].
      rewrite (upload_resume_no_length _ _ _ _ _ Hbody Hn). fields.
      split; [apply filter_drops_id|]. split; [|by right].
      by rewrite marked_lookup, decide_True.
  - eexists _, error. split; [reflexivity|].
    rewrite (upload_resume_caught _ _ _ _ Hbody). fields.
    split; [apply filter_drops_id|]. split; [|by right].
    by rewrite marked_lookup, decide_True.
Qed.

Lemma removed_job_gets_status_again_witness :
  let sent := exec (handleFileUpload two_files) (initState 0) in
  ∃ st',
    run sent [RemoveFile "k3x9q0z1a";
              Settle 0 (Responded 200 (Some (JArr []))) 1 2] = Some st'
    ∧ job_ids (uploadedFiles st') = ["p07qw5e2r"]
    ∧ processingStatus st' !! "k3x9q0z1a" = Some completed.
Proof.
  intros sent.
  destruct (removed_job_gets_status_again sent 0 (new_job <$> two_files)
              (new_job (File.mk "a.pdf" 10, "k3x9q0z1a"))
              (Responded 200 (Some (JArr []))) 1 2 eq_refl)
    as (st' & s & Hrun & _ & _ & _); [by left|].
  exists st'. split; [exact Hrun|].
  cbn in Hrun. injection Hrun as <-. by split.
Defined.

(** ** What touches the collection summary *)

(** X9. The cached summary changes in one way only: a health request
    settles with a response from which [collection.document_count] is read.
    No other step of the session, whatever its outcome, changes it. *)
Theorem only_health_response_changes_cache
    (st : State) (ev : Event) (st' : State) :
  step st ev = Some st' →
  collectionInfo st' ≠ collectionInfo st →
  ∃ rid o now ts dc,
    ev = Settle rid o now ts
    ∧ inflight st !! rid = Some KHealth
    ∧ count_of o = Some dc
    ∧ collectionInfo st' = CollectionInfo.mk dc dc.
Proof.
  intros Hstep. step_inv Hstep; fields; try done.
  intros _. by eexists _, _, _, _, _.
Qed.

Lemma only_health_response_changes_cache_witness :
  let started := exec loadCollectionInfo (initState 0) in
  ∃ st' rid o now ts dc,
    step started (Settle 0 (Responded 200 (Some (health_response 7))) 1 2)
    = Some st'
    ∧ Settle 0 (Responded 200 (Some (health_response 7))) 1 2
      = Settle rid o now ts
    ∧ count_of o = Some dc
    ∧ collectionInfo st' = CollectionInfo.mk dc dc.
Proof.
  intros started. eexists.
  destruct (only_health_response_changes_cache started
              (Settle 0 (Responded 200 (Some (health_response 7))) 1 2) _
              eq_refl)
    as (rid & o & now & ts & dc & Hev & _ & Hcount & Hinfo).
  - cbn. discriminate.
  - exists rid, o, now, ts, dc. split; [reflexivity|]. by split.
Defined.

(** ** A settled upload whose body parses *)

(** X10. When the body of the upload response is the JSON value [null], the
    jobs of the batch are first marked [completed] and a refresh of the
    summary is sent; reading [results.length] then throws, so the failure is
    reported and the jobs end as [error], with the refresh on its way. *)
Theorem upload_null_body_fails_after_refresh
    (st : State) (rid : nat) (b : list Job.t) (status now ts : Z) :
  inflight st !! rid = Some (KUpload b) →
  ∃ st',
    step st (Settle rid (Responded status (Some JNull)) now ts) = Some st'
    ∧ (∀ f, f ∈ b → shown_status st' (Job.id f) = error)
    ∧ inflight st' !! next_rid st = Some KHealth
    ∧ trace st' =
      trace st ++ [Fetch (next_rid st) GetHealth;
                   ConsoleError "Upload failed:";
                   Alert (Text upload_failed_notice)].
Proof.
  intros Hk. eexists. split; [cbn [step]; by rewrite Hk|]. cbn [resume].
  rewrite (upload_resume_no_length _ _ _ _ JNull) by done. fields.
  split; [|split].
  - intros f Hf. eapply marked_shown; [reflexivity|]. by apply job_id_elem.
  - by rewrite lookup_insert_eq.
  - by rewrite <- !app_assoc.
Qed.

Lemma upload_null_body_fails_after_refresh_witness :
  let sent := exec (handleFileUpload two_files) (initState 0) in
  ∃ st',
    step sent (Settle 0 (Responded 200 (Some JNull)) 1 2) = Some st'
    ∧ shown_status st' "k3x9q0z1a" = error
    ∧ inflight st' !! 1%nat = Some KHealth.
Proof.
  intros sent.
  destruct (upload_null_body_fails_after_refresh sent 0
              (new_job <$> two_files) 200 1 2 eq_refl)
    as (st' & Hstep & Hshown & Hwait & _).
  exists st'. split; [exact Hstep|]. split; [|exact Hwait].
  apply (Hshown (new_job (File.mk "a.pdf" 10, "k3x9q0z1a"))). by left.
Defined.

(** X11. When the body of the upload response is an array, the jobs of the
    batch show [completed], one refresh of the summary is sent, and the
    number that the user is told is the length of that array, whatever the
    number of files in the batch and whatever the status of the response. *)
Theorem upload_reports_array_length
    (st : State) (rid : nat) (b : list Job.t) (status : Z)
    (items : list jsval) (now ts : Z) :
  inflight st !! rid = Some (KUpload b) →
  ∃ st',
    step st (Settle rid (Responded status (Some (JArr items))) now ts)
    = Some st'
    ∧ (∀ f, f ∈ b → shown_status st' (Job.id f) = completed)
    ∧ inflight st' !! next_rid st = Some KHealth
    ∧ trace st' =
      trace st ++ [Fetch (next_rid st) GetHealth;
                   Alert (Uploaded (JInt (Z.of_nat (length items))))].
Proof.
  intros Hk. eexists. split; [cbn [step]; by rewrite Hk|]. cbn [resume].
  rewrite (upload_resume_parsed _ _ _ _ (JArr items)
             (JInt (Z.of_nat (length items)))) by done.
  fields. split; [|split].
  - intros f Hf. eapply marked_shown; [reflexivity|]. by apply job_id_elem.
  - by rewrite lookup_insert_eq.
  - by rewrite <- !app_assoc.
Qed.

Lemma upload_reports_array_length_witness :
  let sent := exec (handleFileUpload two_files) (initState 0) in
  ∃ st',
    step sent (Settle 0 (Responded 200 (Some (JArr [JNull]))) 1 2) = Some st'
    ∧ trace st' =
      trace sent ++ [Fetch 1 GetHealth; Alert (Uploaded (JInt 1))].
Proof.
  intros sent.
  destruct (upload_reports_array_length sent 0 (new_job <$> two_files) 200
              [JNull] 1 2 eq_refl) as (st' & Hstep & _ & _ & Htrace).
  exists st'. by split.
Defined.

(** ** Strings: [trim] and the text after the last dot *)

Lemma rev_app_all_ws s1 s2 :
  all_ws (String.rev_app s1 s2) = all_ws s1 && all_ws s2.
Proof.
  revert s2. induction s1 as [|c rest IH]; intros s2; [done|].
  cbn. rewrite IH. cbn. by destruct (is_ws c), (all_ws rest), (all_ws s2).
Qed.

Lemma rev_app_empty s1 s2 : String.rev_app s1 s2 = "" → s1 = "" ∧ s2 = "".
Proof.
  revert s2. induction s1 as [|c rest IH]; intros s2; [done|].
  cbn. intros H. by destruct (IH _ H) as [_ ?].
Qed.

Lemma trimStart_empty s : trimStart s = "" → all_ws s = true.
Proof.
  induction s as [|c rest IH]; [done|]. cbn.
  destruct (is_ws c); [exact IH | done].
Qed.

Lemma trimStart_all_ws s : all_ws (trimStart s) = true → all_ws s = true.
Proof.
  induction s as [|c rest IH]; [done|]. cbn.
  destruct (is_ws c) eqn:Hc; [exact IH|]. cbn. by rewrite Hc.
Qed.

Lemma trim_empty_iff s : trim s = "" ↔ all_ws s = true.
Proof.
  split; [|apply all_ws_trim].
  unfold trim, trimEnd, String.rev. intros H.
  apply rev_app_empty in H as [H _]. apply trimStart_empty in H.
  rewrite rev_app_all_ws, andb_true_r in H. by apply trimStart_all_ws.
Qed.

(** X12. A submission is taken exactly when no response is awaited and the
    input has a character that is not white space.  The message and the
    request then carry the input as typed, white space at the ends
    included; the input is cleared and the flag goes up.  In every other
    case nothing happens. *)
Theorem submit_taken_iff_text_and_idle (st : State) (now ts : Z) :
  step st (SendMessage now ts) =
  Some (if all_ws (inputMessage st) || isThinking st then st
        else
          mkState (uploadedFiles st) (processingStatus st)
            (messages st
               ++ [Message.mk (toString now) user (JStr (inputMessage st))
                     None ts])
            "" true (collectionInfo st)
            (<[next_rid st :=
                 KQuery (Message.mk (toString now) user
                           (JStr (inputMessage st)) None ts)]> (inflight st))
            (S (next_rid st))
            (trace st
               ++ [Fetch (next_rid st) (PostQuery (inputMessage st) 5)])).
Proof.
  cbn [step]. f_equal. rewrite handleSendMessage_run.
  replace (send_blocked st)
    with (all_ws (inputMessage st) || isThinking st); [done|].
  unfold send_blocked. f_equal. cbn [truthy].
  destruct (all_ws (inputMessage st)) eqn:Hws.
  - by rewrite (all_ws_trim _ Hws).
  - destruct (String.eqb (trim (inputMessage st)) "") eqn:Heq; [|done].
    apply String.eqb_eq, trim_empty_iff in Heq. congruence.
Qed.






(** ** [formatFileSize] *)

(** X14. For a byte count below 2^53: the unit of a formatted size is B
    below 1024 bytes, KB below 1024 times 1024 bytes and MB from there on.
    In KB and MB the number shown has one digit after the point and is at
    most 0.05 of the unit away from the size (a size halfway between two
    tenths goes up); it is never below 1.0, and in KB it can reach
    1024.0. *)
Theorem formatFileSize_within_half_a_tenth (bytes : N) :
  (bytes < 2 ^ 53)%N →
  let b := Z.of_N bytes in
  (b < 1024 → formatFileSize bytes = toString b +:+ " B")
  ∧ (1024 ≤ b < 1048576 →
     ∃ n, formatFileSize bytes
          = (toString (n / 10) +:+ "." +:+ toString (n mod 10)) +:+ " KB"
          ∧ 10 ≤ n ≤ 10240
          ∧ 1024 * n - 512 ≤ 10 * b < 1024 * n + 512)
  ∧ (1048576 ≤ b →
     ∃ n, formatFileSize bytes
          = (toString (n / 10) +:+ "." +:+ toString (n mod 10)) +:+ " MB"
          ∧ 10 ≤ n ≤ 10 * 2 ^ 33
          ∧ 1048576 * n - 524288 ≤ 10 * b < 1048576 * n + 524288).
Proof.
  intros Hbound b.
  change (2 ^ 53)%N with 9007199254740992%N in Hbound.
  assert (b < 9007199254740992) as Hb53 by (subst b; lia).
  change (10 * 2 ^ 33) with 85899345920.
  unfold formatFileSize. fold b.
  change (1024 * 1024) with 1048576.
  split; [|split].
  - intros Hb. by rewrite (proj2 (Z.ltb_lt _ _) Hb).
  - intros [Hlo Hhi].
    rewrite (proj2 (Z.ltb_ge _ _) Hlo), (proj2 (Z.ltb_lt _ _) Hhi).
    exists (tenths b 1024). split; [reflexivity|].
    unfold tenths. change (2 * 1024) with 2048.
    Z.div_mod_to_equations. lia.
  - intros Hlo.
    rewrite (proj2 (Z.ltb_ge b 1024)) by lia.
    rewrite (proj2 (Z.ltb_ge _ _) Hlo).
    exists (tenths b 1048576). split; [reflexivity|].
    unfold tenths. change (2 * 1048576) with 2097152.
    Z.div_mod_to_equations. lia.
Qed.

Lemma formatFileSize_within_half_a_tenth_witness :
  formatFileSize 1023 = "1023 B"
  ∧ (∃ n, formatFileSize 1536 =
          (toString (n / 10) +:+ "." +:+ toString (n mod 10)) +:+ " KB"
          ∧ 1024 * n - 512 ≤ 10 * 1536 < 1024 * n + 512)
  ∧ (∃ n, formatFileSize 5767168 =
          (toString (n / 10) +:+ "." +:+ toString (n mod 10)) +:+ " MB"
          ∧ 1048576 * n - 524288 ≤ 10 * 5767168 < 1048576 * n + 524288).
Proof.
  split; [|split].
  - apply (proj1 (formatFileSize_within_half_a_tenth 1023 eq_refl)).
    cbn. lia.
  - destruct (proj1 (proj2 (formatFileSize_within_half_a_tenth 1536 eq_refl)))
      as (n & Hshown & _ & Hnear); [cbn; lia|].
    exists n. by split.
  - destruct (proj2 (proj2
                (formatFileSize_within_half_a_tenth 5767168 eq_refl)))
      as (n & Hshown & _ & Hnear); [cbn; lia|].
    exists n. by split.
Defined.

(** X15. Every size of the last 51 bytes below 1024 times 1024 is shown as
    "1024.0 KB": rounding happens after the unit is chosen, so the KB range
    ends above "1.0 MB", which is what the next byte shows. *)
Theorem formatFileSize_top_of_KB (bytes : N) :
  (1048525 ≤ bytes < 1048576)%N →
  formatFileSize bytes = "1024.0 KB"
  ∧ formatFileSize 1048576 = "1.0 MB".
Proof.
  intros Hrange. split; [|reflexivity].
  unfold formatFileSize, toFixed1. change (1024 * 1024) with 1048576.
  rewrite (proj2 (Z.ltb_ge _ 1024)) by lia.
  rewrite (proj2 (Z.ltb_lt _ 1048576)) by lia.
  assert (tenths (Z.of_N bytes) 1024 = 10240) as ->; [|reflexivity].
  unfold tenths. change (2 * 1024) with 2048.
  Z.div_mod_to_equations. lia.
Qed.

Lemma formatFileSize_top_of_KB_witness :
  formatFileSize 1048575 = "1024.0 KB".
Proof.
  apply (proj1 (formatFileSize_top_of_KB 1048575 ltac:(lia))).
Defined.

(** ** [getStatusIcon] *)

(** X16. [getStatusIcon] tells the four statuses apart, gives every other
    string the yellow loader of [pending], and in every state that the
    session reaches the row of a tracked job never has that yellow loader:
    it has the spinner, the check or the cross of its status. *)
Theorem row_icon_follows_status
    (ts : Z) (evs : list Event) (st : State) (f : Job.t) :
  run (initState ts) evs = Some st →
  f ∈ uploadedFiles st →
  (∀ s1 s2 : Status,
     getStatusIcon (status_text s1) = getStatusIcon (status_text s2) →
     s1 = s2)
  ∧ (∀ other, other ≠ "processing" → other ≠ "completed" →
       other ≠ "error" →
       getStatusIcon other = getStatusIcon "pending")
  ∧ row_icon st (Job.id f) ≠ getStatusIcon "pending"
  ∧ (row_icon st (Job.id f) = getStatusIcon "processing"
     ∨ row_icon st (Job.id f) = getStatusIcon "completed"
     ∨ row_icon st (Job.id f) = getStatusIcon "error").
Proof.
  intros Hrun Hf. split; [|split].
  - intros [] []; cbn; intros H; done || discriminate H.
  - intros other H1 H2 H3. unfold getStatusIcon.
    apply String.eqb_neq in H1, H2, H3. by rewrite H1, H2, H3.
  - destruct (statuses_run ts evs st Hrun) as [Hjobs Hvals].
    destruct (Hjobs f Hf) as [_ [s Hs]].
    unfold row_icon, shown_status. rewrite Hs. cbn [default].
    destruct s; [by destruct (Hvals (Job.id f)) | | |];
      (split; [cbn; discriminate | cbn; auto]).
Qed.

Lemma row_icon_follows_status_witness :
  ∃ st,
    run (initState 0) [SelectFiles two_files; Settle 0 Rejected 1 2] = Some st
    ∧ row_icon st "k3x9q0z1a" = mkIcon X "w-4 h-4 text-red-500".
Proof.
  eexists. split; [reflexivity|].
  destruct (row_icon_follows_status 0
              [SelectFiles two_files; Settle 0 Rejected 1 2] _
              (new_job (File.mk "a.pdf" 10, "k3x9q0z1a")) eq_refl)
    as (_ & _ & _ & Hicon); [by left|].
  reflexivity.
Defined.

(** ** [useKonamiCode] *)

Lemma slice_last10_snoc (keys : list string) (key : string) :
  slice_last10 (keys ++ [key]) = drop (length keys - 9) keys ++ [key].
Proof.
  unfold slice_last10. rewrite length_app. cbn [length].
  replace (length keys + 1 - 10)%nat with (length keys - 9)%nat by lia.
  apply drop_app_le. lia.
Qed.

Lemma slice_last10_again (keys : list string) (key : string) :
  slice_last10 (slice_last10 keys ++ [key]) = slice_last10 (keys ++ [key]).
Proof.
  rewrite !slice_last10_snoc. f_equal.
  unfold slice_last10. rewrite length_drop, drop_drop. f_equal. lia.
Qed.

Lemma slice_last10_length (keys : list string) :
  (length (slice_last10 keys) ≤ 10)%nat.
Proof. unfold slice_last10. rewrite length_drop. lia. Qed.

Lemma last_char_None (s : string) : last_char s = None → s = "".
Proof.
  induction s as [|c rest IH]; [done|]. cbn [last_char].
  destruct rest; [done|]. intros H. by apply IH in H.
Qed.

Lemma last_char_app (s t : string) :
  t ≠ "" → last_char (s +:+ t) = last_char t.
Proof.
  intros Ht. induction s as [|c rest IH]; [done|].
  change (String c rest +:+ t) with (String c (rest +:+ t)).
  cbn [last_char]. rewrite IH.
  destruct (rest +:+ t) eqn:Happ; [|done].
  destruct rest; [by cbn in Happ | discriminate Happ].
Qed.

Lemma last_char_join (front : list string) (key : string) :
  key ≠ "" → last_char (join_comma (front ++ [key])) = last_char key.
Proof.
  intros Hkey. induction front as [|k rest IH]; [done|].
  assert (join_comma (rest ++ [key]) ≠ "") as Hne.
  { intros Hempty. rewrite Hempty in IH. symmetry in IH.
    by apply last_char_None in IH. }
  change ((k :: rest) ++ [key]) with (k :: (rest ++ [key])).
  destruct (rest ++ [key]) as [|k' rest'] eqn:Hrest.
  { by destruct rest. }
  change (join_comma (k :: k' :: rest'))
    with (k +:+ "," +:+ join_comma (k' :: rest')).
  rewrite last_char_app.
  - rewrite last_char_app; [exact IH | exact Hne].
  - by destruct (join_comma (k' :: rest')).
Qed.

(** A key that does not end in the letter a never fires. *)
Lemma handleKeyDown_other (key : string) (prev : list string) :
  key ≠ "" → last_char key ≠ Some "a"%char →
  handleKeyDown key prev = (slice_last10 (prev ++ [key]), false).
Proof.
  intros Hkey Hlast. unfold handleKeyDown.
  destruct (String.eqb _ _) eqn:Heq; [|done].
  apply String.eqb_eq in Heq. exfalso. apply Hlast.
  rewrite <- (last_char_join (drop (length prev - 9) prev) key Hkey).
  rewrite <- slice_last10_snoc, Heq. reflexivity.
Qed.

Lemma type_quiet (keys : list string) (fired : nat) (typed : list string) :
  typed ≠ [] →
  Forall (λ key, key ≠ "" ∧ last_char key ≠ Some "a"%char) typed →
  foldl press (keys, fired) typed = (slice_last10 (keys ++ typed), fired).
Proof.
  induction typed as [|key front IH] using rev_ind; [done|].
  intros _ [Hfront [[Hkey Hlast] _]%Forall_cons]%Forall_app.
  rewrite foldl_snoc. destruct (decide (front = [])) as [->|Hne].
  - cbn [foldl app]. unfold press. cbn [fst snd].
    by rewrite handleKeyDown_other.
  - rewrite (IH Hne Hfront). unfold press. cbn [fst snd].
    rewrite handleKeyDown_other by done.
    by rewrite slice_last10_again, <- app_assoc.
Qed.

(** X17. Whatever keys were pressed before, typing the ten keys of the code
    in order calls the callback once, at the tenth key and not earlier, and
    leaves the buffer empty. *)
Theorem konami_code_fires_from_any_history (prev : list string) :
  type_keys prev konamiCode = ([], 1%nat)
  ∧ ∀ k, (k < 10)%nat → (type_keys prev (take k konamiCode)).2 = 0%nat.
Proof.
  assert (∀ typed, typed ≠ [] →
            (∃ more, take 9 konamiCode = typed ++ more) →
            type_keys prev typed = (slice_last10 (prev ++ typed), 0%nat))
    as Hquiet.
  { intros typed Hne [more Hcode]. apply type_quiet; [done|].
    assert (Forall (λ key, key ≠ "" ∧ last_char key ≠ Some "a"%char)
              (take 9 konamiCode)) as Hnine.
    { repeat constructor; done || (cbn; discriminate). }
    assert (typed = take (length typed) (take 9 konamiCode)) as ->.
    { assert (length typed ≤ 9)%nat as Hlen.
      { apply (f_equal length) in Hcode. rewrite length_app in Hcode.
        cbn in Hcode. lia. }
      rewrite Hcode. by rewrite take_app_length. }
    by apply Forall_take. }
  split.
  - assert (slice_last10 (prev ++ konamiCode) = konamiCode) as Hlast.
    { unfold slice_last10. rewrite length_app.
      replace (length prev + length konamiCode - 10)%nat
        with (length prev) by (cbn [length konamiCode]; lia).
      by rewrite drop_app_length. }
    pose proof (Hquiet (take 9 konamiCode) ltac:(discriminate)
                  ltac:(by exists [])) as Hnine.
    transitivity (press (type_keys prev (take 9 konamiCode)) "a").
    { exact (foldl_snoc press (prev, 0%nat) (take 9 konamiCode) "a"). }
    rewrite Hnine. unfold press, handleKeyDown. cbn [fst snd].
    rewrite slice_last10_again, <- app_assoc.
    replace (take 9 konamiCode ++ ["a"]) with konamiCode by reflexivity.
    rewrite Hlast. reflexivity.
  - intros k Hk. destruct k as [|k]; [done|].
    rewrite Hquiet; [done | by destruct k |].
    exists (drop (S k) (take 9 konamiCode)).
    do 9 (destruct k as [|k]; [reflexivity|]). lia.
Qed.

Lemma konami_code_fires_from_any_history_witness :
  type_keys ["x"; "ArrowUp"] konamiCode = ([], 1%nat)
  ∧ (type_keys ["x"; "ArrowUp"] (take 9 konamiCode)).2 = 0%nat.
Proof.
  destruct (konami_code_fires_from_any_history ["x"; "ArrowUp"])
    as [Hfires Hquiet].
  split; [exact Hfires|]. apply Hquiet. lia.
Defined.

Lemma buffer_step (acc : list string * nat) (key : string) :
  (length (press acc key).1 ≤ 10)%nat
  ∧ (acc.2 ≤ (press acc key).2)%nat.
Proof.
  unfold press, handleKeyDown.
  destruct (String.eqb _ _); cbn; [lia|].
  split; [apply slice_last10_length | lia].
Qed.

(** X18. After any keys, the buffer holds at most ten of them; it holds
    exactly the last ten keys of the history, or all of it when shorter,
    as long as the callback has not been called. *)
Theorem key_buffer_is_last_ten (prev typed : list string) :
  typed ≠ [] →
  (length (type_keys prev typed).1 ≤ 10)%nat
  ∧ ((type_keys prev typed).2 = 0%nat →
     (type_keys prev typed).1 = slice_last10 (prev ++ typed)).
Proof.
  intros Htyped. unfold type_keys. split.
  - destruct (exists_last Htyped) as (front & key & ->).
    rewrite foldl_snoc. apply buffer_step.
  - induction typed as [|key front IH] using rev_ind; [done|].
    rewrite foldl_snoc. destruct (decide (front = [])) as [->|Hne].
    + cbn [foldl app]. unfold press, handleKeyDown. cbn [fst snd].
      by destruct (String.eqb _ _).
    + specialize (IH Hne).
      destruct (foldl press (prev, 0%nat) front) as [buf n].
      cbn [fst snd] in IH. unfold press, handleKeyDown. cbn [fst snd].
      destruct (String.eqb _ _); cbn [fst snd]; [done|].
      intros Hzero. rewrite (IH Hzero).
      by rewrite slice_last10_again, <- app_assoc.
Qed.

Lemma key_buffer_is_last_ten_witness :
  (type_keys ["x"; "y"] ["ArrowUp"; "b"]).1 = ["x"; "y"; "ArrowUp"; "b"].
Proof.
  apply (proj2 (key_buffer_is_last_ten ["x"; "y"] ["ArrowUp"; "b"]
                  ltac:(discriminate))).
  reflexivity.
Defined.
